(** * Key management client: the local IndexedDB service and the sync service

    A shallow embedding of [src/services/indexed-db-service.ts],
    [src/services/server-api-service.ts] and [src/services/sync-service.ts],
    with the entity types of [src/types/index.ts].

    - An IndexedDB object store is the list of its records in ascending key
      order together with the current number of its key generator, which
      hands out the keys up to 2^53 and none after; the indexes created by
      [connect] with [unique: true] are checked by [add] and [put].
    - A promise is modelled by how it settles ([Settled]); an [async]
      method is a function from the state of the client to a settled result
      and the next state.  Every [transaction] of the service commits on its
      own, so the state reached when a later step rejects keeps the writes
      of the earlier steps.
    - [crypto.randomUUID()] and [Date.now()] are read from an [Environment];
      the state counts how many values were drawn so far.
    - The database is connected.  A write request fails only with a
      ConstraintError; reads, deletions and [localStorage] do not fail.
      Ids are integers, and [accessRooms] is always an array (so
      [employee.accessRooms || []] is [employee.accessRooms]). *)

From Stdlib Require Import ZArith String List Bool Lia Permutation.
Import ListNotations.
Local Open Scope Z_scope.

(** ** JavaScript values *)

(** An optional numeric argument [x?: number] is tested by truthiness in
    the sources ([if (roomId && employeeId)], [buildingId ? .. : ..]):
    [undefined] and [0] are both falsy. *)
Definition truthy (x : option Z) : option Z :=
  match x with
  | Some z => if z =? 0 then None else Some z
  | None => None
  end.

(** [Array.prototype.includes] on an array of numbers. *)
Definition includes (l : list Z) (x : Z) : bool := existsb (Z.eqb x) l.

(** ** Object stores *)

Module Store.

Record t (V : Type) : Type := mk { records : list (Z * V); keyGenerator : Z }.
Arguments mk {V} _ _.
Arguments records {V} _.
Arguments keyGenerator {V} _.

(** The largest number a key generator hands out, 2^53. *)
Definition maxKey : Z := 9007199254740992.

Section Operations.
Context {V : Type}.

(** [unique v w] tells whether two values collide on an index created
    with [{ unique: true }]. *)
Variable unique : V -> V -> bool.

Definition empty : t V := mk [] 1.

Fixpoint lookup (k : Z) (l : list (Z * V)) : option V :=
  match l with
  | [] => None
  | (k', v) :: tl => if k' =? k then Some v else lookup k tl
  end.

Definition get (k : Z) (st : t V) : option V := lookup k (records st).

Definition getAll (st : t V) : list (Z * V) := records st.

(** Records are kept in ascending key order. *)
Fixpoint place (k : Z) (v : V) (l : list (Z * V)) : list (Z * V) :=
  match l with
  | [] => [(k, v)]
  | (k', v') :: tl =>
      if k <? k' then (k, v) :: (k', v') :: tl else (k', v') :: place k v tl
  end.

Definition drop (k : Z) (l : list (Z * V)) : list (Z * V) :=
  filter (fun kv => negb (fst kv =? k)) l.

Definition clashes (k : Z) (v : V) (l : list (Z * V)) : bool :=
  existsb (fun kv => negb (fst kv =? k) && unique v (snd kv)) l.

(** An explicit key at or above the generator's current number moves
    the generator past it; the key counts as [maxKey] at most, so the
    generator stops at [maxKey + 1]. *)
Definition bump (k g : Z) : Z :=
  let value := Z.min k maxKey in
  if g <=? value then value + 1 else g.

(** The key of a value handed to [add]: the value's [id] when it has
    one, and the generator's current number otherwise; generating a key
    fails once the current number is above [maxKey]. *)
Definition keyFor (key : option Z) (g : Z) : option Z :=
  match key with
  | Some k => Some k
  | None => if maxKey <? g then None else Some g
  end.

(** [store.add(value)]; [None] stands for the request failing with a
    ConstraintError: no key can be generated, the key is taken, or a
    unique index has the value. *)
Definition add (key : option Z) (v : V) (st : t V) : option (Z * t V) :=
  match keyFor key (keyGenerator st) with
  | None => None
  | Some k =>
      match lookup k (records st) with
      | Some _ => None
      | None =>
          if clashes k v (records st) then None
          else Some (k, mk (place k v (records st)) (bump k (keyGenerator st)))
      end
  end.

(** [store.put(value)] for a value that carries its key. *)
Definition put (k : Z) (v : V) (st : t V) : option (t V) :=
  if clashes k v (records st) then None
  else Some (mk (place k v (drop k (records st))) (bump k (keyGenerator st))).

Definition delete (k : Z) (st : t V) : t V :=
  mk (drop k (records st)) (keyGenerator st).

(** All the [add] requests of one transaction: the first failing
    request aborts the transaction and nothing is stored. *)
Fixpoint addAll (l : list (option Z * V)) (st : t V) : option (t V) :=
  match l with
  | [] => Some st
  | (key, v) :: tl =>
      match add key v st with
      | Some (_, st') => addAll tl st'
      | None => None
      end
  end.

End Operations.

End Store.

(** ** Entities ([src/types/index.ts]) *)

(** A stored record is the pair of its key (the [id] property, the key
    path of every store) and its other properties.  A value handed to
    [add] carries an optional [id]: [Omit<Room, 'id'>] values have none,
    rows fetched from the server have one. *)

Module Room.
Record fields : Type := mk { number : string; building : Z; floor : Z }.
Definition t : Type := (Z * fields)%type.
Definition input : Type := (option Z * fields)%type.
(** Every index of the rooms store is created with [unique: false]. *)
Definition unique (a b : fields) : bool := false.
End Room.

Module Employee.
Record fields : Type := mk {
    lastName : string;
    firstName : string;
    middleName : string;
    employeeId : string;
    accessRooms : list Z
  }.
Definition t : Type := (Z * fields)%type.
Definition input : Type := (option Z * fields)%type.
(** Index [employeeId], [unique: true]. *)
Definition unique (a b : fields) : bool :=
  String.eqb (employeeId a) (employeeId b).
Definition setAccessRooms (l : list Z) (e : fields) : fields :=
  mk (lastName e) (firstName e) (middleName e) (employeeId e) l.
End Employee.

Module AccessRight.
Record fields : Type := mk { employeeId : Z; roomId : Z }.
Definition t : Type := (Z * fields)%type.
Definition input : Type := (option Z * fields)%type.
(** Index [unique_access] on [employeeId, roomId], [unique: true]. *)
Definition unique (a b : fields) : bool :=
  (employeeId a =? employeeId b) && (roomId a =? roomId b).
End AccessRight.

Inductive Operation : Type := Create | Update | Delete | Grant | Revoke | Bulk.

Inductive EntityType : Type := RoomEntity | EmployeeEntity | AccessEntity.

(** The [data] property of a pending change, one constructor per object
    literal built by the service. *)
Inductive Payload : Type :=
  | RoomData (room : Room.t)
  | EmployeeData (employee : Employee.t)
  | DeletedRoom (id : Z) (room : option Room.t)
  | DeletedEmployee (id : Z) (employee : option Employee.t)
  | GrantData (id employeeId roomId : Z)
  | RevokeData (employeeId roomId : Z)
  | RoomsData (rooms : list Room.input)
  | EmployeesData (employees : list Employee.input)
  | AccessRightsData (accessRights : list AccessRight.input).

Module PendingChange.
Record t : Type := mk {
    id : string;
    timestamp : Z;
    operation : Operation;
    entityType : EntityType;
    data : Payload
  }.
Definition tag (c : t) : Operation * EntityType := (operation c, entityType c).
End PendingChange.

(** ** The environment and the state of the client *)

Record Environment : Type := {
    randomUUID : nat -> string;   (* the n-th value of crypto.randomUUID() *)
    dateNow : nat -> Z            (* the n-th value of Date.now() *)
  }.

Record State : Type := mkState {
    rooms : Store.t Room.fields;
    employees : Store.t Employee.fields;
    accessRights : Store.t AccessRight.fields;
    pendingChanges : list PendingChange.t;   (* in ascending order of [id] *)
    draws : nat                               (* values drawn from the environment *)
  }.

Definition setRooms (st : Store.t Room.fields) (s : State) : State :=
  mkState st (employees s) (accessRights s) (pendingChanges s) (draws s).
Definition setEmployees (st : Store.t Employee.fields) (s : State) : State :=
  mkState (rooms s) st (accessRights s) (pendingChanges s) (draws s).
Definition setAccessRights (st : Store.t AccessRight.fields) (s : State) : State :=
  mkState (rooms s) (employees s) st (pendingChanges s) (draws s).
Definition setPendingChanges (l : list PendingChange.t) (s : State) : State :=
  mkState (rooms s) (employees s) (accessRights s) l (draws s).
Definition tick (s : State) : State :=
  mkState (rooms s) (employees s) (accessRights s) (pendingChanges s) (S (draws s)).

(** The three auto-increment stores, with the accessors the generic
    [transaction] of the service selects by store name. *)
Record StoreName (V : Type) : Type := {
    view : State -> Store.t V;
    update : Store.t V -> State -> State;
    uniqueIndex : V -> V -> bool
  }.
Arguments view {V} _ _.
Arguments update {V} _ _ _.
Arguments uniqueIndex {V} _ _ _.

Definition ROOMS : StoreName Room.fields :=
  {| view := rooms; update := setRooms; uniqueIndex := Room.unique |}.
Definition EMPLOYEES : StoreName Employee.fields :=
  {| view := employees; update := setEmployees; uniqueIndex := Employee.unique |}.
Definition ACCESS_RIGHTS : StoreName AccessRight.fields :=
  {| view := accessRights; update := setAccessRights;
     uniqueIndex := AccessRight.unique |}.

(** ** Promises *)

(** What a rejected promise carries: the ConstraintError of a failed
    IndexedDB request, or the error thrown by [apiRequest]. *)
Inductive Exception : Type := ConstraintError | ApiError.

Inductive Settled (A : Type) : Type :=
  | Resolved (a : A)
  | Rejected (e : Exception)
  | Unsettled.                     (* a promise nobody resolves or rejects *)
Arguments Resolved {A} _.
Arguments Rejected {A} _.
Arguments Unsettled {A}.

(** An asynchronous computation over a state [S]. *)
Definition Task (S A : Type) : Type := S -> Settled A * S.

Definition Async (A : Type) : Type := Task State A.

Definition ret {S A} (a : A) : Task S A := fun s => (Resolved a, s).

Definition bind {S A B} (m : Task S A) (k : A -> Task S B) : Task S B :=
  fun s =>
    match m s with
    | (Resolved a, s') => k a s'
    | (Rejected e, s') => (Rejected e, s')
    | (Unsettled, s') => (Unsettled, s')
    end.

(** [try { m } catch (error) { h }] *)
Definition tryCatch {S A} (m : Task S A) (h : Task S A) : Task S A :=
  fun s =>
    match m s with
    | (Rejected _, s') => h s'
    | r => r
    end.

(** A synchronous read of the state. *)
Definition query {A} (f : State -> A) : Async A := fun s => (Resolved (f s), s).

Declare Scope async_scope.
Delimit Scope async_scope with async.
Notation "x <- m ;; k" := (bind m (fun x => k))
  (at level 61, m at next level, right associativity) : async_scope.
Notation "m ;; k" := (bind m (fun _ => k))
  (at level 61, right associativity) : async_scope.
Local Open Scope async_scope.

(** ** IndexedDBService *)

Module IndexedDBService.
Section Service.

Variable env : Environment.

(** [this.transaction(storeName, 'readwrite', store => store.add(v))] *)
Definition transactionAdd {V} (name : StoreName V) (v : option Z * V) : Async Z :=
  fun s =>
    match Store.add (uniqueIndex name) (fst v) (snd v) (view name s) with
    | Some (k, st) => (Resolved k, update name st s)
    | None => (Rejected ConstraintError, s)
    end.

(** [... store => store.put(v)] *)
Definition transactionPut {V} (name : StoreName V) (v : Z * V) : Async unit :=
  fun s =>
    match Store.put (uniqueIndex name) (fst v) (snd v) (view name s) with
    | Some st => (Resolved tt, update name st s)
    | None => (Rejected ConstraintError, s)
    end.

(** [... store => store.delete(key)] *)
Definition transactionDelete {V} (name : StoreName V) (k : Z) : Async unit :=
  fun s => (Resolved tt, update name (Store.delete k (view name s)) s).

Definition hasPending (i : string) (l : list PendingChange.t) : bool :=
  existsb (fun c => String.eqb (PendingChange.id c) i) l.

Fixpoint placePending (c : PendingChange.t) (l : list PendingChange.t)
  : list PendingChange.t :=
  match l with
  | [] => [c]
  | d :: tl =>
      if String.ltb (PendingChange.id c) (PendingChange.id d)
      then c :: d :: tl else d :: placePending c tl
  end.

Definition addPendingChange (op : Operation) (ety : EntityType) (d : Payload)
  : Async unit :=
  fun s =>
    let pendingChange :=
      PendingChange.mk (randomUUID env (draws s)) (dateNow env (draws s)) op ety d in
    let s1 := tick s in
    if hasPending (PendingChange.id pendingChange) (pendingChanges s1)
    then (Rejected ConstraintError, s1)
    else (Resolved tt,
          setPendingChanges (placePending pendingChange (pendingChanges s1)) s1).

(** *** Rooms *)

Definition getRooms (buildingId : option Z) (s : State) : list Room.t :=
  match truthy buildingId with
  | Some b => filter (fun r => Room.building (snd r) =? b) (Store.getAll (rooms s))
  | None => Store.getAll (rooms s)
  end.

Definition getRoomById (roomId : Z) (s : State) : option Room.t :=
  option_map (pair roomId) (Store.get roomId (rooms s)).

Definition createRoom (room : Room.input) : Async Room.t :=
  newRoom <- transactionAdd ROOMS room ;;
  let createdRoom := (newRoom, snd room) in
  addPendingChange Create RoomEntity (RoomData createdRoom) ;;
  ret createdRoom.

Definition updateRoom (room : Room.t) : Async bool :=
  tryCatch
    (transactionPut ROOMS room ;;
     addPendingChange Update RoomEntity (RoomData room) ;;
     ret true)
    (ret false).

(** *** Access rights (queries) *)

Definition getAccessRights (roomId employeeId : option Z) (s : State)
  : list AccessRight.t :=
  let all := Store.getAll (accessRights s) in
  match truthy roomId, truthy employeeId with
  | Some r, Some e =>
      filter (fun a => (AccessRight.employeeId (snd a) =? e)
                       && (AccessRight.roomId (snd a) =? r)) all
  | Some r, None => filter (fun a => AccessRight.roomId (snd a) =? r) all
  | None, Some e => filter (fun a => AccessRight.employeeId (snd a) =? e) all
  | None, None => all
  end.

(** [for (const access of accessRights) { accessStore.delete(access.id); }] *)
Definition deleteEach (l : list AccessRight.t) : Async unit :=
  fun s =>
    (Resolved tt,
     setAccessRights
       (fold_left (fun st a => Store.delete (fst a) st) l (accessRights s)) s).

Definition deleteRoom (roomId : Z) : Async bool :=
  tryCatch
    (room <- query (getRoomById roomId) ;;
     transactionDelete ROOMS roomId ;;
     accessRights <- query (getAccessRights (Some roomId) None) ;;
     deleteEach accessRights ;;
     addPendingChange Delete RoomEntity (DeletedRoom roomId room) ;;
     ret true)
    (ret false).

(** *** Employees *)

Definition getEmployeeById (employeeId : Z) (s : State) : option Employee.t :=
  option_map (pair employeeId) (Store.get employeeId (employees s)).

Definition createEmployee (employee : Employee.input) : Async Employee.t :=
  newEmployeeId <- transactionAdd EMPLOYEES employee ;;
  let createdEmployee := (newEmployeeId, snd employee) in
  addPendingChange Create EmployeeEntity (EmployeeData createdEmployee) ;;
  ret createdEmployee.

Definition updateEmployee (employee : Employee.t) : Async bool :=
  tryCatch
    (transactionPut EMPLOYEES employee ;;
     addPendingChange Update EmployeeEntity (EmployeeData employee) ;;
     ret true)
    (ret false).

Definition deleteEmployee (employeeId : Z) : Async bool :=
  tryCatch
    (employee <- query (getEmployeeById employeeId) ;;
     transactionDelete EMPLOYEES employeeId ;;
     accessRights <- query (getAccessRights None (Some employeeId)) ;;
     deleteEach accessRights ;;
     addPendingChange Delete EmployeeEntity (DeletedEmployee employeeId employee) ;;
     ret true)
    (ret false).

(** *** Access rights (mutations) *)

Definition grantAccess (employeeId roomId : Z) : Async bool :=
  tryCatch
    (existingAccess <- query (getAccessRights (Some roomId) (Some employeeId)) ;;
     match existingAccess with
     | _ :: _ => ret true
     | [] =>
         accessId <- transactionAdd ACCESS_RIGHTS
                       (None, AccessRight.mk employeeId roomId) ;;
         employee <- query (getEmployeeById employeeId) ;;
         match employee with
         | Some (id, e) =>
             if includes (Employee.accessRooms e) roomId then ret true
             else updateEmployee
                    (id, Employee.setAccessRooms
                           (Employee.accessRooms e ++ [roomId]) e)
         | None => ret true
         end ;;
         addPendingChange Grant AccessEntity (GrantData accessId employeeId roomId) ;;
         ret true
     end)
    (ret false).

(** [for (const access of accessRights) { await this.transaction(..,
  store => store.delete(access.id)); }] has the effect of [deleteEach]. *)
Definition revokeAccess (employeeId roomId : Z) : Async bool :=
  tryCatch
    (accessRights <- query (getAccessRights (Some roomId) (Some employeeId)) ;;
     match accessRights with
     | [] => ret true
     | _ :: _ =>
         deleteEach accessRights ;;
         employee <- query (getEmployeeById employeeId) ;;
         match employee with
         | Some (id, e) =>
             updateEmployee
               (id, Employee.setAccessRooms
                      (filter (fun x => negb (x =? roomId)) (Employee.accessRooms e)) e)
         | None => ret true
         end ;;
         addPendingChange Revoke AccessEntity (RevokeData employeeId roomId) ;;
         ret true
     end)
    (ret false).

(** *** Bulk operations *)

(** One transaction holds all the [add] requests.  [transaction.onerror]
  rejects; [transaction.oncomplete] records the pending change and
  resolves with the count in its [then], so that the promise stays
  unsettled when the recording rejects. *)
Definition bulkImport {V} (name : StoreName V) (ety : EntityType)
    (d : Payload) (l : list (option Z * V)) : Async Z :=
  fun s =>
    match Store.addAll (uniqueIndex name) l (view name s) with
    | None => (Rejected ConstraintError, s)
    | Some st =>
        match addPendingChange Bulk ety d (update name st s) with
        | (Resolved _, s') => (Resolved (Z.of_nat (length l)), s')
        | (_, s') => (Unsettled, s')
        end
    end.

Definition bulkImportRooms (rooms : list Room.input) : Async Z :=
  bulkImport ROOMS RoomEntity (RoomsData rooms) rooms.

Definition bulkImportEmployees (employees : list Employee.input) : Async Z :=
  bulkImport EMPLOYEES EmployeeEntity (EmployeesData employees) employees.

Definition bulkImportAccessRights (accessRights : list AccessRight.input) : Async Z :=
  bulkImport ACCESS_RIGHTS AccessEntity (AccessRightsData accessRights) accessRights.

(** *** The pending changes *)

Definition getPendingChanges (s : State) : list PendingChange.t :=
  pendingChanges s.

Definition deletePendingChange (i : string) : Async bool :=
  fun s =>
    (Resolved true,
     setPendingChanges
       (filter (fun c => negb (String.eqb (PendingChange.id c) i)) (pendingChanges s)) s).

Definition clearPendingChanges : Async bool :=
  fun s => (Resolved true, setPendingChanges [] s).

End Service.
End IndexedDBService.

(** ** DataProvider ([src/contexts/data-context.tsx])

    The React provider repeats the operations of the service on the same
    database through the [idb] wrapper.  Its [deleteRoom] and
    [grantAccess] are embedded here (with [db] set); they also refresh the
    displayed count of pending changes, which is not part of the
    database. *)

Module DataContext.
Section Provider.

Variable env : Environment.

(** [db.getAll] filtered by [right.roomId === roomId &&
    right.employeeId === employeeId] when both ids are truthy, the
    single-field indexes otherwise. *)
Definition getAccessRights (roomId employeeId : option Z) (s : State)
  : list AccessRight.t :=
  let all := Store.getAll (accessRights s) in
  match truthy roomId, truthy employeeId with
  | Some r, Some e =>
      filter (fun right => (AccessRight.roomId (snd right) =? r)
                           && (AccessRight.employeeId (snd right) =? e)) all
  | Some r, None => filter (fun a => AccessRight.roomId (snd a) =? r) all
  | None, Some e => filter (fun a => AccessRight.employeeId (snd a) =? e) all
  | None, None => all
  end.

Definition updateEmployee (employee : Employee.t) : Async bool :=
  tryCatch
    (IndexedDBService.transactionPut EMPLOYEES employee ;;
     IndexedDBService.addPendingChange env Update EmployeeEntity
       (EmployeeData employee) ;;
     ret true)
    (ret false).

(** The rows of the room are read with
    [db.getAllFromIndex(STORES.ACCESS_RIGHTS, 'roomId', roomId)]. *)
Definition deleteRoom (roomId : Z) : Async bool :=
  tryCatch
    (room <- query (IndexedDBService.getRoomById roomId) ;;
     IndexedDBService.transactionDelete ROOMS roomId ;;
     accessRights <-
       query (fun s => filter (fun a => AccessRight.roomId (snd a) =? roomId)
                              (Store.getAll (accessRights s))) ;;
     IndexedDBService.deleteEach accessRights ;;
     IndexedDBService.addPendingChange env Delete RoomEntity
       (DeletedRoom roomId room) ;;
     ret true)
    (ret false).

Definition grantAccess (employeeId roomId : Z) : Async bool :=
  tryCatch
    (existingAccess <- query (getAccessRights (Some roomId) (Some employeeId)) ;;
     match existingAccess with
     | _ :: _ => ret true
     | [] =>
         accessId <- IndexedDBService.transactionAdd ACCESS_RIGHTS
                       (None, AccessRight.mk employeeId roomId) ;;
         employee <- query (IndexedDBService.getEmployeeById employeeId) ;;
         match employee with
         | Some (id, e) =>
             if includes (Employee.accessRooms e) roomId then ret true
             else updateEmployee
                    (id, Employee.setAccessRooms
                           (Employee.accessRooms e ++ [roomId]) e)
         | None => ret true
         end ;;
         IndexedDBService.addPendingChange env Grant AccessEntity
           (GrantData accessId employeeId roomId) ;;
         ret true
     end)
    (ret false).

End Provider.
End DataContext.

(** ** ServerApiService *)

(** The public methods of the service that send a mutation. *)
Inductive ApiMethod : Type :=
  | CreateRoom | UpdateRoom | DeleteRoom
  | CreateEmployee | UpdateEmployee | DeleteEmployee
  | GrantAccess | RevokeAccess
  | BulkImportRooms | BulkImportEmployees | BulkImportAccessRights.

(** What a GET request gives back to [syncFromServer]. *)
Inductive Fetched (A : Type) : Type :=
  | FetchThrows
  | FetchNotArray
  | FetchArray (rows : list A).
Arguments FetchThrows {A}.
Arguments FetchNotArray {A}.
Arguments FetchArray {A} _.

(** The remote authority behind [apiRequest].  The request a method sends
    is a function of the method and of the [data] of the change it
    replays, so the outcome of [apiRequest] is given per method and
    payload: [true] when the response is read, [false] when [apiRequest]
    throws (offline, timeout, or a status that is not ok). *)
Record Server (Remote : Type) : Type := {
    apiRequest : ApiMethod -> Payload -> Remote -> bool * Remote;
    fetchRooms : Remote -> Fetched Room.input * Remote;
    fetchEmployees : Remote -> Fetched Employee.input * Remote;
    fetchAccessRights : Remote -> Fetched AccessRight.input * Remote
  }.
Arguments apiRequest {Remote} _ _ _ _.
Arguments fetchRooms {Remote} _ _.
Arguments fetchEmployees {Remote} _ _.
Arguments fetchAccessRights {Remote} _ _.

Module ServerApiService.
Section Service.

Context {Remote : Type}.
Variable server : Server Remote.

Definition request (m : ApiMethod) (d : Payload) : Task Remote unit :=
  fun r =>
    match apiRequest server m d r with
    | (true, r') => (Resolved tt, r')
    | (false, r') => (Rejected ApiError, r')
    end.

(** [return this.apiRequest<Room>('rooms', 'POST', room);] *)
Definition createRoom (d : Payload) : Task Remote unit := request CreateRoom d.

Definition createEmployee (d : Payload) : Task Remote unit :=
  request CreateEmployee d.

(** [try { await this.apiRequest(..); return true; } catch (error)
  { console.error(..); return false; }] *)
Definition guarded (m : ApiMethod) (d : Payload) : Task Remote bool :=
  tryCatch (request m d ;; ret true) (ret false).

Definition updateRoom (d : Payload) : Task Remote bool := guarded UpdateRoom d.
Definition deleteRoom (d : Payload) : Task Remote bool := guarded DeleteRoom d.
Definition updateEmployee (d : Payload) : Task Remote bool :=
  guarded UpdateEmployee d.
Definition deleteEmployee (d : Payload) : Task Remote bool :=
  guarded DeleteEmployee d.
Definition grantAccess (d : Payload) : Task Remote bool := guarded GrantAccess d.
Definition revokeAccess (d : Payload) : Task Remote bool := guarded RevokeAccess d.

(** The bulk methods return [result.count], or [0] from their [catch];
  [processChange] does not look at the number. *)
Definition bulkImportRooms (d : Payload) : Task Remote bool :=
  guarded BulkImportRooms d.
Definition bulkImportEmployees (d : Payload) : Task Remote bool :=
  guarded BulkImportEmployees d.
Definition bulkImportAccessRights (d : Payload) : Task Remote bool :=
  guarded BulkImportAccessRights d.

End Service.
End ServerApiService.

(** ** SyncService *)

Module SyncService.

Record t : Type := mk {
    localDb : State;
    isSyncing : bool;
    lastSyncTime : Z;
    localStorage : option Z      (* the item 'lastSyncTime' *)
  }.

Definition setLocalDb (db : State) (svc : t) : t :=
  mk db (isSyncing svc) (lastSyncTime svc) (localStorage svc).
Definition setIsSyncing (b : bool) (svc : t) : t :=
  mk (localDb svc) b (lastSyncTime svc) (localStorage svc).

Section Service.

Variable env : Environment.
Context {Remote : Type}.
Variable server : Server Remote.

(** [pendingChanges.sort((a, b) => a.timestamp - b.timestamp)]: the sort
  of an array is stable. *)
Fixpoint insertByTimestamp (c : PendingChange.t) (l : list PendingChange.t)
  : list PendingChange.t :=
  match l with
  | [] => [c]
  | d :: tl =>
      if PendingChange.timestamp c <=? PendingChange.timestamp d
      then c :: d :: tl else d :: insertByTimestamp c tl
  end.

Definition sortByTimestamp (l : list PendingChange.t) : list PendingChange.t :=
  fold_right insertByTimestamp [] l.

(** The [try .. catch] of [processChange] logs and throws the error
  again. *)
Definition processChange (change : PendingChange.t) : Task Remote unit :=
  let d := PendingChange.data change in
  match PendingChange.operation change, PendingChange.entityType change with
  | Create, RoomEntity => ServerApiService.createRoom server d
  | Create, EmployeeEntity => ServerApiService.createEmployee server d
  | Update, RoomEntity => ServerApiService.updateRoom server d ;; ret tt
  | Update, EmployeeEntity => ServerApiService.updateEmployee server d ;; ret tt
  | Delete, RoomEntity => ServerApiService.deleteRoom server d ;; ret tt
  | Delete, EmployeeEntity => ServerApiService.deleteEmployee server d ;; ret tt
  | Grant, AccessEntity => ServerApiService.grantAccess server d ;; ret tt
  | Revoke, AccessEntity => ServerApiService.revokeAccess server d ;; ret tt
  | Bulk, RoomEntity => ServerApiService.bulkImportRooms server d ;; ret tt
  | Bulk, EmployeeEntity => ServerApiService.bulkImportEmployees server d ;; ret tt
  | Bulk, AccessEntity => ServerApiService.bulkImportAccessRights server d ;; ret tt
  | _, _ => ret tt
  end.

(** One turn of the loop of [syncToServer]. *)
Definition replay (acc : State * Remote) (change : PendingChange.t)
  : State * Remote :=
  let (db, remote) := acc in
  match processChange change remote with
  | (Resolved _, remote') =>
      (snd (IndexedDBService.deletePendingChange (PendingChange.id change) db),
       remote')
  | (_, remote') => (db, remote')
  end.

(** [this.lastSyncTime = Date.now(); localStorage.setItem(..)] *)
Definition stamp (svc : t) : t :=
  let now := dateNow env (draws (localDb svc)) in
  mk (tick (localDb svc)) (isSyncing svc) now (Some now).

Definition syncToServer (onLine : bool) (svc : t) (remote : Remote)
  : bool * (t * Remote) :=
  if negb onLine || isSyncing svc then (false, (svc, remote))
  else
    let pendingChanges := IndexedDBService.getPendingChanges (localDb svc) in
    match pendingChanges with
    | [] => (true, (setIsSyncing false svc, remote))
    | _ :: _ =>
        let (db, remote') :=
          fold_left replay (sortByTimestamp pendingChanges) (localDb svc, remote) in
        (true, (setIsSyncing false (stamp (setLocalDb db svc)), remote'))
    end.

(** The rows kept from a fetch: the array when the response is one, and
  the initial [[]] when the fetch throws or answers something else. *)
Definition fetchedRows {A} (f : Fetched A) : list A :=
  match f with
  | FetchArray rows => rows
  | _ => []
  end.

(** [if (rows.length > 0) { try { await this.localDb.bulkImport..(rows) }
  catch (error) { console.error(..) } }] *)
Definition importRows {A} (bulk : list A -> Async Z) (rows : list A) : Async unit :=
  match rows with
  | [] => ret tt
  | _ :: _ => tryCatch (bulk rows ;; ret tt) (ret tt)
  end.

Definition isEmpty {A} (l : list A) : bool :=
  match l with [] => true | _ :: _ => false end.

Definition syncFromServer (onLine : bool) (svc : t) (remote : Remote)
  : Settled bool * (t * Remote) :=
  if negb onLine || isSyncing svc then (Resolved false, (svc, remote))
  else
    let (roomsResponse, remote1) := fetchRooms server remote in
    let (employeesResponse, remote2) := fetchEmployees server remote1 in
    let (accessRightsResponse, remote3) := fetchAccessRights server remote2 in
    let rooms := fetchedRows roomsResponse in
    let employees := fetchedRows employeesResponse in
    let accessRights := fetchedRows accessRightsResponse in
    match
      (importRows (IndexedDBService.bulkImportRooms env) rooms ;;
       importRows (IndexedDBService.bulkImportEmployees env) employees ;;
       importRows (IndexedDBService.bulkImportAccessRights env) accessRights)
        (localDb svc)
    with
    | (Resolved _, db) =>
        let svc1 := setLocalDb db svc in
        let svc2 :=
          if isEmpty rooms && isEmpty employees && isEmpty accessRights
          then svc1 else stamp svc1 in
        (Resolved true, (setIsSyncing false svc2, remote3))
    | (Rejected _, db) =>
        (Resolved false, (setIsSyncing false (setLocalDb db svc), remote3))
    | (Unsettled, db) =>
        (Unsettled, (setIsSyncing true (setLocalDb db svc), remote3))
    end.

(** [fullSync] reads [navigator.onLine] once itself and once in each of
    the two directions; a rejection of either direction is caught. *)
Definition fullSync (onLine onLineTo onLineFrom : bool) (svc : t) (remote : Remote)
  : Settled bool * (t * Remote) :=
  if negb onLine then (Resolved false, (svc, remote))
  else
    let '(toServerResult, (svc1, remote1)) := syncToServer onLineTo svc remote in
    match syncFromServer onLineFrom svc1 remote1 with
    | (Resolved fromServerResult, st) =>
        (Resolved (toServerResult || fromServerResult), st)
    | (Rejected _, st) => (Resolved (toServerResult || false), st)
    | (Unsettled, st) => (Unsettled, st)
    end.

Definition getPendingChangesCount (svc : t) : nat :=
  length (IndexedDBService.getPendingChanges (localDb svc)).

Definition hasPendingChanges (svc : t) : bool :=
  Nat.ltb 0 (length (IndexedDBService.getPendingChanges (localDb svc))).

End Service.
End SyncService.

(** ** Vocabulary of the properties *)

(** The AccessRight rows of the pair [(employeeId, roomId)]. *)
Definition rowsFor (employeeId roomId : Z) (s : State) : list AccessRight.t :=
  filter (fun a => (AccessRight.employeeId (snd a) =? employeeId)
                   && (AccessRight.roomId (snd a) =? roomId))
         (Store.records (accessRights s)).

(** The room ids of the AccessRight rows of one employee. *)
Definition grantedRooms (employeeId : Z) (s : State) : list Z :=
  map (fun a => AccessRight.roomId (snd a))
      (filter (fun a => AccessRight.employeeId (snd a) =? employeeId)
              (Store.records (accessRights s))).

(** [accessRooms] and the AccessRight rows denote the same set of rooms,
    for every stored employee. *)
Definition cacheAgrees (s : State) : Prop :=
  forall id e, IndexedDBService.getEmployeeById id s = Some (id, e) ->
    forall r, In r (Employee.accessRooms e) <-> In r (grantedRooms id s).

(** The keys of a store are pairwise distinct and, counted as
    [Store.maxKey] at most, below the key generator, as IndexedDB keeps
    them. *)
Definition keysOk {V} (st : Store.t V) : Prop :=
  NoDup (map fst (Store.records st))
  /\ Forall (fun kv => Z.min (fst kv) Store.maxKey < Store.keyGenerator st)
            (Store.records st).

(** No two records collide on a unique index. *)
Definition indexOk {V} (unique : V -> V -> bool) (st : Store.t V) : Prop :=
  forall k v, In (k, v) (Store.records st) ->
    Store.clashes unique k v (Store.records st) = false.

(** The integrity IndexedDB maintains on the three entity stores. *)
Definition intact (s : State) : Prop :=
  keysOk (rooms s) /\ keysOk (employees s) /\ keysOk (accessRights s)
  /\ indexOk Employee.unique (employees s)
  /\ indexOk AccessRight.unique (accessRights s).

(** An asynchronous computation keeps a property of the state, however
    it settles. *)
Definition preserves {A} (I : State -> Prop) (m : Async A) : Prop :=
  forall s, I s -> I (snd (m s)).

(** The change that the next call of [addPendingChange] records. *)
Definition nextChange (env : Environment) (op : Operation) (ety : EntityType)
    (d : Payload) (s : State) : PendingChange.t :=
  PendingChange.mk (randomUUID env (draws s)) (dateNow env (draws s)) op ety d.

(** The mutating calls that record their own change and nothing else:
    create, update, delete and bulk import. *)
Inductive Mutation : Type :=
  | DoCreateRoom (room : Room.input)
  | DoUpdateRoom (room : Room.t)
  | DoDeleteRoom (roomId : Z)
  | DoCreateEmployee (employee : Employee.input)
  | DoUpdateEmployee (employee : Employee.t)
  | DoDeleteEmployee (employeeId : Z)
  | DoBulkImportRooms (rooms : list Room.input)
  | DoBulkImportEmployees (employees : list Employee.input)
  | DoBulkImportAccessRights (accessRights : list AccessRight.input).


(** A call succeeds when its promise resolves, to [true] for the methods
    that answer a boolean. *)
Definition resolved {A} (r : Settled A * State) : bool * State :=
  (match fst r with Resolved _ => true | _ => false end, snd r).

Definition resolvedTrue (r : Settled bool * State) : bool * State :=
  (match fst r with Resolved b => b | _ => false end, snd r).

Definition perform (env : Environment) (m : Mutation) (s : State) : bool * State :=
  match m with
  | DoCreateRoom room => resolved (IndexedDBService.createRoom env room s)
  | DoUpdateRoom room => resolvedTrue (IndexedDBService.updateRoom env room s)
  | DoDeleteRoom roomId => resolvedTrue (IndexedDBService.deleteRoom env roomId s)
  | DoCreateEmployee employee =>
      resolved (IndexedDBService.createEmployee env employee s)
  | DoUpdateEmployee employee =>
      resolvedTrue (IndexedDBService.updateEmployee env employee s)
  | DoDeleteEmployee employeeId =>
      resolvedTrue (IndexedDBService.deleteEmployee env employeeId s)
  | DoBulkImportRooms rooms =>
      resolved (IndexedDBService.bulkImportRooms env rooms s)
  | DoBulkImportEmployees employees =>
      resolved (IndexedDBService.bulkImportEmployees env employees s)
  | DoBulkImportAccessRights accessRights =>
      resolved (IndexedDBService.bulkImportAccessRights env accessRights s)
  end.




(** ** Employee search ([getEmployees] of the local service) *)

Module EmployeeSearch.
Section Search.

(** [String.prototype.toLowerCase], kept abstract. *)
Variable toLowerCase : string -> string.

(** [text.includes(query)]: [query] occurs in [text]. *)
Fixpoint strIncludes (text query : string) : bool :=
  String.prefix query text
  || match text with
     | EmptyString => false
     | String _ rest => strIncludes rest query
     end.

(** [`${lastName} ${firstName} ${middleName}`] *)
Definition fullName (e : Employee.fields) : string :=
  String.append (Employee.lastName e)
    (String.append " " (String.append (Employee.firstName e)
       (String.append " " (Employee.middleName e)))).

Definition matches (query : string) (employee : Employee.t) : bool :=
  strIncludes (toLowerCase (fullName (snd employee))) query
  || strIncludes (toLowerCase (Employee.employeeId (snd employee))) query.

(** An absent and an empty [searchQuery] are both falsy. *)
Definition getEmployees (searchQuery : option string) (s : State)
  : list Employee.t :=
  let employees := Store.getAll (employees s) in
  match searchQuery with
  | None => employees
  | Some EmptyString => employees
  | Some q => filter (matches (toLowerCase q)) employees
  end.

End Search.
End EmployeeSearch.

(** ** ApiService (the second file of [src/unnamed/part_006])

    [updateRoomWithAccess] and [updateEmployeeWithAccess] are written
    against the methods of [this.dbService]; the methods they call are
    gathered in [DbService], over the state [D] of the database behind
    it. *)

Record DbService (D : Type) : Type := {
    dbUpdateRoom : Room.t -> Task D bool;
    dbUpdateEmployee : Employee.t -> Task D bool;
    dbGetAccessRights : option Z -> option Z -> Task D (list AccessRight.t);
    dbGrantAccess : Z -> Z -> Task D bool;
    dbRevokeAccess : Z -> Z -> Task D bool
  }.
Arguments dbUpdateRoom {D} _ _ _.
Arguments dbUpdateEmployee {D} _ _ _.
Arguments dbGetAccessRights {D} _ _ _ _.
Arguments dbGrantAccess {D} _ _ _ _.
Arguments dbRevokeAccess {D} _ _ _ _.

Module ApiService.
Section Service.

Context {D : Type}.
Variable dbService : DbService D.

(** [wanted.filter(id => !current.includes(id))] *)
Definition toAdd (wanted current : list Z) : list Z :=
  filter (fun id => negb (includes current id)) wanted.

(** [current.filter(id => !wanted.includes(id))] *)
Definition toRemove (wanted current : list Z) : list Z :=
  filter (fun id => negb (includes wanted id)) current.

(** [for (const x of l) { await f(x); }] *)
Fixpoint forEach {A B} (f : A -> Task D B) (l : list A) : Task D unit :=
  match l with
  | [] => ret tt
  | x :: tl => f x ;; forEach f tl
  end.

(** [withTransaction] of the database service runs the callback and
    throws again what it throws. *)
Definition withTransaction {A} (callback : Task D A) : Task D A := callback.

Definition updateRoomWithAccess (room : Room.t) (employeeIdsWithAccess : list Z)
  : Task D bool :=
  withTransaction
    (dbUpdateRoom dbService room ;;
     currentAccessRights <- dbGetAccessRights dbService (Some (fst room)) None ;;
     let currentEmployeeIds :=
       map (fun right => AccessRight.employeeId (snd right)) currentAccessRights in
     forEach (fun employeeId => dbGrantAccess dbService employeeId (fst room))
       (toAdd employeeIdsWithAccess currentEmployeeIds) ;;
     forEach (fun employeeId => dbRevokeAccess dbService employeeId (fst room))
       (toRemove employeeIdsWithAccess currentEmployeeIds) ;;
     ret true).

Definition updateEmployeeWithAccess (employee : Employee.t) (roomIdsWithAccess : list Z)
  : Task D bool :=
  withTransaction
    (dbUpdateEmployee dbService employee ;;
     currentAccessRights <- dbGetAccessRights dbService None (Some (fst employee)) ;;
     let currentRoomIds :=
       map (fun right => AccessRight.roomId (snd right)) currentAccessRights in
     forEach (fun roomId => dbGrantAccess dbService (fst employee) roomId)
       (toAdd roomIdsWithAccess currentRoomIds) ;;
     forEach (fun roomId => dbRevokeAccess dbService (fst employee) roomId)
       (toRemove roomIdsWithAccess currentRoomIds) ;;
     ret true).

End Service.
End ApiService.

(** ** Runs of calls of the local service *)

Inductive ServiceCall : Type :=
  | CallMutation (m : Mutation)
  | CallGrantAccess (employeeId roomId : Z)
  | CallRevokeAccess (employeeId roomId : Z)
  | CallDeletePendingChange (id : string)
  | CallClearPendingChanges.

(** The state a call leaves, however its promise settles. *)
Definition call (env : Environment) (c : ServiceCall) (s : State) : State :=
  match c with
  | CallMutation m => snd (perform env m s)
  | CallGrantAccess e r => snd (IndexedDBService.grantAccess env e r s)
  | CallRevokeAccess e r => snd (IndexedDBService.revokeAccess env e r s)
  | CallDeletePendingChange i => snd (IndexedDBService.deletePendingChange i s)
  | CallClearPendingChanges => snd (IndexedDBService.clearPendingChanges s)
  end.

Definition callAll (env : Environment) (cs : list ServiceCall) (s : State) : State :=
  fold_left (fun s c => call env c s) cs s.

(** The database as [connect] creates it. *)
Definition emptyDatabase : State :=
  mkState Store.empty Store.empty Store.empty [] 0.

(** The ids of the pending changes are pairwise distinct. *)
Definition outboxOk (s : State) : Prop :=
  NoDup (map PendingChange.id (pendingChanges s)).

(** Every record and every pending change of [s] is still in [s'], with
    the same content. *)
Definition grows (s s' : State) : Prop :=
  (forall k, IndexedDBService.getRoomById k s <> None ->
     IndexedDBService.getRoomById k s' = IndexedDBService.getRoomById k s)
  /\ (forall k, IndexedDBService.getEmployeeById k s <> None ->
        IndexedDBService.getEmployeeById k s' = IndexedDBService.getEmployeeById k s)
  /\ incl (IndexedDBService.getAccessRights None None s)
          (IndexedDBService.getAccessRights None None s')
  /\ incl (pendingChanges s) (pendingChanges s').

(** ** Sample data *)

Module Sample.

Definition env : Environment :=
  {| randomUUID := fun n => String (Ascii.ascii_of_nat (97 + n)) EmptyString;
     dateNow := fun n => 1000 + Z.of_nat n |}.


Definition room101 : Room.fields := Room.mk "101" 1 1.

Definition ivanov (accessRooms : list Z) : Employee.fields :=
  Employee.mk "Ivanov" "Ivan" "Ivanovich" "EMP001" accessRooms.

Definition emptyState : State :=
  mkState Store.empty Store.empty Store.empty [] 0.

(** Employee 1 holds the key of room 5, in both representations. *)
Definition oneGrant : State :=
  mkState (Store.mk [(5, room101)] 6)
          (Store.mk [(1, ivanov [5])] 2)
          (Store.mk [(1, AccessRight.mk 1 5)] 2)
          [] 0.

(** Employee 1 exists and holds no key. *)
Definition noGrant : State :=
  mkState (Store.mk [(5, room101)] 6)
          (Store.mk [(1, ivanov [])] 2)
          Store.empty
          [] 0.

(** A server that refuses every [grantAccess] request and logs the
    requests it accepts; it answers the room list with room 5, throws on
    the employee list and answers an empty access list. *)
Definition server : Server (list ApiMethod) :=
  {| apiRequest := fun m _ log =>
       match m with
       | GrantAccess => (false, log)
       | _ => (true, log ++ [m])
       end;
     fetchRooms := fun log => (FetchArray [(Some 5, room101)], log);
     fetchEmployees := fun log => (FetchThrows, log);
     fetchAccessRights := fun log => (FetchArray [], log) |}.

(** A server whose room list throws and whose employee and access lists
    answer one row each. *)
Definition roomlessServer : Server (list ApiMethod) :=
  {| apiRequest := fun m _ log => (true, log ++ [m]);
     fetchRooms := fun log => (FetchThrows, log);
     fetchEmployees := fun log => (FetchArray [(Some 1, ivanov [5])], log);
     fetchAccessRights := fun log => (FetchArray [(Some 1, AccessRight.mk 1 5)], log) |}.

(** A service over the empty database. *)
Definition fresh : SyncService.t := SyncService.mk emptyState false 0 None.

(** Three pending changes: a created room, a grant, a created employee. *)
Definition outbox : list PendingChange.t :=
  [ PendingChange.mk "a" 1 Create RoomEntity (RoomData (5, room101));
    PendingChange.mk "b" 2 Grant AccessEntity (GrantData 1 1 5);
    PendingChange.mk "c" 3 Create EmployeeEntity (EmployeeData (1, ivanov [5])) ].

Definition queued : SyncService.t :=
  SyncService.mk
    (mkState (Store.mk [(5, room101)] 6)
             (Store.mk [(1, ivanov [5])] 2)
             (Store.mk [(1, AccessRight.mk 1 5)] 2)
             outbox 3)
    false 0 None.

(** A service whose local database already holds room 5. *)
Definition synced : SyncService.t := SyncService.mk oneGrant false 0 None.

(** Room 5 and employee 1 in a database whose rooms and accessRights
    stores have handed out their last key. *)
Definition exhausted : State :=
  mkState (Store.mk [(5, room101)] (Store.maxKey + 1))
          (Store.mk [(1, ivanov [])] 2)
          (Store.mk [] (Store.maxKey + 1))
          [] 0.

End Sample.

(** ** Queries: a zero id reads as no id *)

Section Queries.

Lemma truthy_nonzero (z : Z) : z <> 0 -> truthy (Some z) = Some z.
Proof.
  intros H. unfold truthy. destruct (Z.eqb_spec z 0); congruence.
Qed.

Lemma getAccessRights_pair (e r : Z) (s : State) :
  e <> 0 -> r <> 0 ->
  IndexedDBService.getAccessRights (Some r) (Some e) s = rowsFor e r s.
Proof.
  intros He Hr. unfold IndexedDBService.getAccessRights.
  rewrite (truthy_nonzero r Hr), (truthy_nonzero e He). reflexivity.
Qed.

Lemma getAccessRights_room (r : Z) (s : State) :
  r <> 0 ->
  IndexedDBService.getAccessRights (Some r) None s
  = filter (fun a => AccessRight.roomId (snd a) =? r)
           (Store.records (accessRights s)).
Proof.
  intros Hr. unfold IndexedDBService.getAccessRights.
  rewrite (truthy_nonzero r Hr). reflexivity.
Qed.

(** C10. An id argument equal to 0 is read as an absent argument:
    [getAccessRights(0, employeeId)] is [getAccessRights(undefined,
    employeeId)], all the rows of that employee and not the rows of the
    pair; [getAccessRights(roomId, 0)] is [getAccessRights(roomId)];
    [getAccessRights(0, 0)] is the whole relation; [getRooms(0)] is all
    the rooms, not the rooms of a building 0. *)
Theorem zero_id_reads_as_absent (roomId employeeId : option Z) (s : State) :
  IndexedDBService.getAccessRights (Some 0) employeeId s
    = IndexedDBService.getAccessRights None employeeId s
  /\ IndexedDBService.getAccessRights None employeeId s
     = match truthy employeeId with
       | Some e => filter (fun a => AccessRight.employeeId (snd a) =? e)
                          (Store.getAll (accessRights s))
       | None => Store.getAll (accessRights s)
       end
  /\ IndexedDBService.getAccessRights roomId (Some 0) s
     = IndexedDBService.getAccessRights roomId None s
  /\ IndexedDBService.getAccessRights roomId None s
     = match truthy roomId with
       | Some r => filter (fun a => AccessRight.roomId (snd a) =? r)
                          (Store.getAll (accessRights s))
       | None => Store.getAll (accessRights s)
       end
  /\ IndexedDBService.getAccessRights (Some 0) (Some 0) s
     = Store.getAll (accessRights s)
  /\ IndexedDBService.getRooms (Some 0) s = Store.getAll (rooms s)
  /\ IndexedDBService.getRooms (Some 0) s = IndexedDBService.getRooms None s.
Proof.
  unfold IndexedDBService.getAccessRights, IndexedDBService.getRooms.
  cbn [truthy Z.eqb].
  destruct (truthy roomId), (truthy employeeId); repeat split; reflexivity.
Qed.

End Queries.

(** ** The provider agrees with the service *)

Section Provider.

Variable env : Environment.

Lemma provider_getAccessRights (roomId employeeId : option Z) (s : State) :
  DataContext.getAccessRights roomId employeeId s
  = IndexedDBService.getAccessRights roomId employeeId s.
Proof.
  unfold DataContext.getAccessRights, IndexedDBService.getAccessRights.
  destruct (truthy roomId), (truthy employeeId); try reflexivity.
  apply filter_ext. intros a. apply andb_comm.
Qed.

(** X24. The [grantAccess] of the provider and the [grantAccess] of the
    service are the same function of the database: for every pair of
    ids and every state they settle alike and leave the same state. *)
Lemma provider_grantAccess (employeeId roomId : Z) (s : State) :
  DataContext.grantAccess env employeeId roomId s
  = IndexedDBService.grantAccess env employeeId roomId s.
Proof.
  unfold DataContext.grantAccess, IndexedDBService.grantAccess,
    tryCatch, bind, query.
  rewrite provider_getAccessRights. reflexivity.
Qed.

(** X25. The [deleteRoom] of the provider reads the rows to cascade
    through the index [roomId] instead of [getAccessRights]; for every
    non-zero id it settles as the [deleteRoom] of the service does and
    leaves the same state. *)
Lemma provider_deleteRoom (roomId : Z) (s : State) :
  roomId <> 0 ->
  DataContext.deleteRoom env roomId s = IndexedDBService.deleteRoom env roomId s.
Proof.
  intros Hr. unfold DataContext.deleteRoom, IndexedDBService.deleteRoom,
    tryCatch, bind, query, IndexedDBService.transactionDelete.
  rewrite getAccessRights_room by exact Hr. reflexivity.
Qed.

End Provider.

(** ** Object stores: lookups after writes *)

Section StoreFacts.

Context {V : Type}.
Implicit Types (l : list (Z * V)) (k : Z) (v : V) (st : Store.t V).

Lemma place_split k v l :
  exists l1 l2, l = l1 ++ l2 /\ Store.place k v l = l1 ++ (k, v) :: l2.
Proof.
  induction l as [|[k' v'] tl IH]; cbn [Store.place].
  - exists [], []. split; reflexivity.
  - destruct (k <? k').
    + exists [], ((k', v') :: tl). split; reflexivity.
    + destruct IH as (l1 & l2 & -> & ->).
      exists ((k', v') :: l1), l2. split; reflexivity.
Qed.

Lemma filter_place (p : Z * V -> bool) k v l :
  length (filter p (Store.place k v l))
  = ((if p (k, v) then 1 else 0) + length (filter p l))%nat.
Proof.
  destruct (place_split k v l) as (l1 & l2 & -> & ->).
  rewrite !filter_app, !length_app. cbn [filter].
  destruct (p (k, v)); cbn [length]; lia.
Qed.

Lemma in_place x k v l : In x (Store.place k v l) <-> x = (k, v) \/ In x l.
Proof.
  destruct (place_split k v l) as (l1 & l2 & -> & ->).
  rewrite !in_app_iff. cbn [In]. intuition congruence.
Qed.

Lemma lookup_place_same k v l :
  Store.lookup k l = None -> Store.lookup k (Store.place k v l) = Some v.
Proof.
  induction l as [|[k' v'] tl IH]; cbn [Store.lookup Store.place]; intros H.
  - rewrite Z.eqb_refl. reflexivity.
  - destruct (Z.eqb_spec k' k) as [->|Hk]; [discriminate|].
    destruct (k <? k'); cbn [Store.lookup].
    + rewrite Z.eqb_refl. reflexivity.
    + destruct (Z.eqb_spec k' k); [contradiction|]. auto.
Qed.

Lemma lookup_place_other k k' v l :
  k' <> k -> Store.lookup k' (Store.place k v l) = Store.lookup k' l.
Proof.
  intros Hk. induction l as [|[k0 v0] tl IH]; cbn [Store.lookup Store.place].
  - destruct (Z.eqb_spec k k'); congruence.
  - destruct (k <? k0); cbn [Store.lookup].
    + destruct (Z.eqb_spec k k'); congruence.
    + rewrite IH. reflexivity.
Qed.

Lemma lookup_drop_same k l : Store.lookup k (Store.drop k l) = None.
Proof.
  induction l as [|[k' v'] tl IH]; cbn [Store.lookup Store.drop filter fst].
  - reflexivity.
  - destruct (Z.eqb_spec k' k); cbn [negb Store.lookup].
    + exact IH.
    + destruct (Z.eqb_spec k' k); [contradiction|]. exact IH.
Qed.

Lemma lookup_drop_other k k' l :
  k' <> k -> Store.lookup k' (Store.drop k l) = Store.lookup k' l.
Proof.
  intros Hk. induction l as [|[k0 v0] tl IH];
    cbn [Store.lookup Store.drop filter fst].
  - reflexivity.
  - destruct (Z.eqb_spec k0 k) as [->|Hk0]; cbn [negb Store.lookup].
    + destruct (Z.eqb_spec k k'); [congruence|]. exact IH.
    + destruct (k0 =? k'); [reflexivity|]. exact IH.
Qed.

Lemma lookup_in k v l : Store.lookup k l = Some v -> In (k, v) l.
Proof.
  induction l as [|[k' v'] tl IH]; cbn [Store.lookup]; intros H.
  - discriminate.
  - destruct (Z.eqb_spec k' k) as [->|Hk].
    + injection H as ->. left. reflexivity.
    + right. auto.
Qed.

Lemma lookup_none_below g l :
  Forall (fun kv => Z.min (fst kv) Store.maxKey < g) l -> g <= Store.maxKey ->
  Store.lookup g l = None.
Proof.
  intros Hl Hk. induction Hl as [|[k' v'] tl Hlt _ IH]; cbn [Store.lookup].
  - reflexivity.
  - cbn [fst] in Hlt. destruct (Z.eqb_spec k' g); [lia|]. exact IH.
Qed.

(** Deleting, key by key, the records selected by [p] leaves the
    records that [p] rejects, when keys are not repeated. *)
Lemma drop_notin k l : ~ In k (map fst l) -> Store.drop k l = l.
Proof.
  induction l as [|[k' v'] tl IH]; cbn [Store.drop filter map fst In]; intros H.
  - reflexivity.
  - destruct (Z.eqb_spec k' k) as [->|Hk]; [tauto|]. cbn [negb].
    f_equal. apply IH. tauto.
Qed.

Lemma drop_filter_comm (p : Z * V -> bool) k l :
  Store.drop k (filter p l) = filter p (Store.drop k l).
Proof.
  unfold Store.drop. induction l as [|x tl IH]; cbn [filter].
  - reflexivity.
  - destruct (p x) eqn:Hp, (negb (fst x =? k)) eqn:Hk; cbn [filter];
      rewrite ?Hp, ?Hk, IH; reflexivity.
Qed.

Lemma fold_delete_records (dead : list (Z * V)) (st : Store.t V) :
  Store.records (fold_left (fun st a => Store.delete (fst a) st) dead st)
  = fold_left (fun l a => Store.drop (fst a) l) dead (Store.records st).
Proof.
  revert st. induction dead as [|a tl IH]; intros st; cbn [fold_left].
  - reflexivity.
  - rewrite IH. reflexivity.
Qed.

Lemma fold_delete_keyGenerator (dead : list (Z * V)) (st : Store.t V) :
  Store.keyGenerator (fold_left (fun st a => Store.delete (fst a) st) dead st)
  = Store.keyGenerator st.
Proof.
  revert st. induction dead as [|a tl IH]; intros st; cbn [fold_left].
  - reflexivity.
  - rewrite IH. reflexivity.
Qed.

Lemma fold_drop_filter (p : Z * V -> bool) (dead l : list (Z * V)) :
  fold_left (fun l a => Store.drop (fst a) l) dead (filter p l)
  = filter p (fold_left (fun l a => Store.drop (fst a) l) dead l).
Proof.
  revert l. induction dead as [|a tl IH]; intros l; cbn [fold_left].
  - reflexivity.
  - rewrite drop_filter_comm. apply IH.
Qed.

Lemma delete_selected (p : Z * V -> bool) l :
  NoDup (map fst l) ->
  fold_left (fun l a => Store.drop (fst a) l) (filter p l) l
  = filter (fun a => negb (p a)) l.
Proof.
  induction l as [|[k v] tl IH]; cbn [filter map fst]; intros Hnd.
  - reflexivity.
  - inversion Hnd as [|? ? Hnotin Hnd']; subst.
    assert (Hd : Store.drop k tl = tl) by (apply drop_notin; exact Hnotin).
    destruct (p (k, v)) eqn:Hp; cbn [negb fold_left].
    + assert (Hhd : Store.drop k ((k, v) :: tl) = tl).
      { unfold Store.drop. cbn [filter fst]. rewrite Z.eqb_refl. exact Hd. }
      cbn [fst]. rewrite Hhd. apply IH. exact Hnd'.
    + (* the kept record survives every later deletion *)
      assert (Hkeep : forall dead acc : list (Z * V),
                 ~ In k (map fst dead) ->
                 fold_left (fun l a => Store.drop (fst a) l) dead ((k, v) :: acc)
                 = (k, v) :: fold_left (fun l a => Store.drop (fst a) l) dead acc).
      { induction dead as [|[k' v'] dtl IHd]; intros acc Hn; cbn [fold_left].
        - reflexivity.
        - cbn [map fst In] in Hn.
          assert (Hhd : Store.drop k' ((k, v) :: acc) = (k, v) :: Store.drop k' acc).
          { unfold Store.drop. cbn [filter fst].
            destruct (Z.eqb_spec k k') as [->|Hne]; [tauto|]. reflexivity. }
          cbn [fst]. rewrite Hhd. apply IHd. tauto. }
      rewrite Hkeep.
      * f_equal. apply IH. exact Hnd'.
      * intros Hin. apply Hnotin. apply in_map_iff in Hin.
        destruct Hin as (x & Hx & Hin). apply filter_In in Hin.
        apply in_map_iff. exists x. tauto.
Qed.

Lemma lookup_none_notin k l : Store.lookup k l = None <-> ~ In k (map fst l).
Proof.
  induction l as [|[k' v'] tl IH]; cbn [Store.lookup map fst In].
  - tauto.
  - destruct (Z.eqb_spec k' k).
    + split; [discriminate|tauto].
    + rewrite IH. tauto.
Qed.

Lemma existsb_place (f : Z * V -> bool) k v l :
  existsb f (Store.place k v l) = f (k, v) || existsb f l.
Proof.
  destruct (place_split k v l) as (l1 & l2 & -> & ->).
  rewrite !existsb_app. cbn [existsb].
  destruct (existsb f l1), (f (k, v)); reflexivity.
Qed.

Lemma existsb_drop (f : Z * V -> bool) k l :
  existsb f l = false -> existsb f (Store.drop k l) = false.
Proof.
  unfold Store.drop. induction l as [|x tl IH]; cbn [existsb filter]; intros H.
  - reflexivity.
  - apply orb_false_iff in H. destruct H as [Hx Htl].
    destruct (negb (fst x =? k)); cbn [existsb]; rewrite ?Hx; auto.
Qed.

Lemma in_drop x k l : In x (Store.drop k l) <-> In x l /\ fst x <> k.
Proof.
  unfold Store.drop. rewrite filter_In.
  destruct (Z.eqb_spec (fst x) k); cbn [negb]; intuition congruence.
Qed.

Lemma keys_drop k l : NoDup (map fst l) -> NoDup (map fst (Store.drop k l)).
Proof.
  unfold Store.drop. induction l as [|x tl IH]; cbn [filter map]; intros Hnd.
  - constructor.
  - inversion Hnd as [|? ? Hnotin Hnd']; subst.
    destruct (negb (fst x =? k)); cbn [map]; [|auto].
    constructor; [|auto]. intros Hin. apply Hnotin.
    apply in_map_iff in Hin. destruct Hin as (y & Hy & Hin).
    apply filter_In in Hin. apply in_map_iff. exists y. tauto.
Qed.

Lemma keys_place k v l :
  ~ In k (map fst l) -> NoDup (map fst l) -> NoDup (map fst (Store.place k v l)).
Proof.
  destruct (place_split k v l) as (l1 & l2 & -> & ->). intros Hnotin Hnd.
  rewrite map_app. cbn [map fst]. rewrite map_app in Hnotin, Hnd.
  eapply Permutation_NoDup; [apply Permutation_middle|].
  constructor; assumption.
Qed.

Lemma below_place k v g l :
  Forall (fun kv : Z * V => Z.min (fst kv) Store.maxKey < g) l ->
  Forall (fun kv : Z * V => Z.min (fst kv) Store.maxKey < Store.bump k g)
         (Store.place k v l).
Proof.
  intros Hl. apply Forall_forall. intros x Hin. apply in_place in Hin.
  unfold Store.bump. cbv zeta. destruct Hin as [->|Hin]; cbn [fst].
  - destruct (Z.leb_spec g (Z.min k Store.maxKey)); lia.
  - rewrite Forall_forall in Hl. specialize (Hl x Hin).
    destruct (Z.leb_spec g (Z.min k Store.maxKey)); lia.
Qed.

(** What a successful [add] has done. *)
Lemma add_some (unique : V -> V -> bool) (key : option Z) v st k st' :
  Store.add unique key v st = Some (k, st') ->
  Store.keyFor key (Store.keyGenerator st) = Some k
  /\ Store.lookup k (Store.records st) = None
  /\ Store.clashes unique k v (Store.records st) = false
  /\ st' = Store.mk (Store.place k v (Store.records st))
                    (Store.bump k (Store.keyGenerator st)).
Proof.
  unfold Store.add.
  destruct (Store.keyFor key (Store.keyGenerator st)) as [k0|]; [|discriminate].
  destruct (Store.lookup k0 (Store.records st)) eqn:Hl; [discriminate|].
  destruct (Store.clashes unique k0 v (Store.records st)) eqn:Hc; [discriminate|].
  intros [= <- <-]. auto.
Qed.

(** [add] of a value without id, while the generator can still hand out
    a key: the key is free, and only a unique index can refuse the
    value. *)
Lemma add_generated (unique : V -> V -> bool) v st :
  Forall (fun kv => Z.min (fst kv) Store.maxKey < Store.keyGenerator st)
         (Store.records st) ->
  Store.keyGenerator st <= Store.maxKey ->
  Store.add unique None v st
  = if Store.clashes unique (Store.keyGenerator st) v (Store.records st) then None
    else Some (Store.keyGenerator st,
               Store.mk (Store.place (Store.keyGenerator st) v (Store.records st))
                        (Store.keyGenerator st + 1)).
Proof.
  intros Hbelow Hmax. unfold Store.add, Store.keyFor.
  destruct (Z.ltb_spec Store.maxKey (Store.keyGenerator st)); [lia|].
  rewrite (lookup_none_below _ _ Hbelow Hmax).
  destruct (Store.clashes _ _ _ _); [reflexivity|].
  unfold Store.bump. cbv zeta.
  rewrite Z.min_l by exact Hmax. rewrite Z.leb_refl. reflexivity.
Qed.

(** Once the generator is past [maxKey], [add] of a value without id
    fails. *)
Lemma add_exhausted (unique : V -> V -> bool) v st :
  Store.maxKey < Store.keyGenerator st -> Store.add unique None v st = None.
Proof.
  intros Hmax. unfold Store.add, Store.keyFor.
  destruct (Z.ltb_spec Store.maxKey (Store.keyGenerator st)); [reflexivity|lia].
Qed.

(** *** The integrity of a store is kept by its requests *)

Variable unique : V -> V -> bool.
Hypothesis unique_sym : forall a b, unique a b = unique b a.

Lemma keysOk_empty : keysOk (@Store.empty V).
Proof. split; constructor. Qed.

Lemma indexOk_empty : indexOk unique (@Store.empty V).
Proof. intros k v []. Qed.

Lemma keysOk_add key v st k st' :
  keysOk st -> Store.add unique key v st = Some (k, st') -> keysOk st'.
Proof.
  intros [Hnd Hbelow] Hadd.
  destruct (add_some _ _ _ _ _ _ Hadd) as (_ & Hl & _ & ->).
  split; cbn [Store.records Store.keyGenerator].
  - apply keys_place; [apply lookup_none_notin; exact Hl|exact Hnd].
  - apply below_place. exact Hbelow.
Qed.

Lemma keysOk_put k v st st' :
  keysOk st -> Store.put unique k v st = Some st' -> keysOk st'.
Proof.
  intros [Hnd Hbelow]. unfold Store.put.
  destruct (Store.clashes unique k v (Store.records st)); [discriminate|].
  intros [= <-]. split; cbn [Store.records Store.keyGenerator].
  - apply keys_place; [|apply keys_drop; exact Hnd].
    apply lookup_none_notin, lookup_drop_same.
  - apply below_place. apply Forall_forall. intros x Hin.
    apply in_drop in Hin. rewrite Forall_forall in Hbelow. apply Hbelow. tauto.
Qed.

Lemma keysOk_delete k st : keysOk st -> keysOk (Store.delete k st).
Proof.
  intros [Hnd Hbelow]. split; cbn [Store.delete Store.records Store.keyGenerator].
  - apply keys_drop. exact Hnd.
  - apply Forall_forall. intros x Hin. apply in_drop in Hin.
    rewrite Forall_forall in Hbelow. apply Hbelow. tauto.
Qed.

Lemma no_clash_pair k v k' v' l :
  Store.clashes unique k v l = false -> In (k', v') l -> k' <> k ->
  unique v v' = false.
Proof.
  unfold Store.clashes. intros Hc Hin Hne.
  destruct (unique v v') eqn:Hu; [|reflexivity].
  rewrite <- Hc. symmetry. apply existsb_exists. exists (k', v').
  split; [exact Hin|]. cbn [fst snd]. rewrite Hu.
  destruct (Z.eqb_spec k' k); [contradiction|reflexivity].
Qed.

Lemma indexOk_place k v l :
  (forall k' v', In (k', v') l -> Store.clashes unique k' v' l = false) ->
  Store.clashes unique k v l = false ->
  forall k' v', In (k', v') (Store.place k v l) ->
    Store.clashes unique k' v' (Store.place k v l) = false.
Proof.
  intros Hidx Hnew k' v' Hin. unfold Store.clashes. rewrite existsb_place.
  cbn [fst snd]. apply in_place in Hin. destruct Hin as [[= -> ->]|Hin].
  - rewrite Z.eqb_refl. cbn [negb andb orb]. exact Hnew.
  - apply orb_false_iff. split; [|apply Hidx; exact Hin].
    destruct (Z.eqb_spec k k') as [->|Hne]; [reflexivity|]. cbn [negb andb].
    rewrite unique_sym. eapply no_clash_pair; eauto.
Qed.

Lemma indexOk_add key v st k st' :
  indexOk unique st -> Store.add unique key v st = Some (k, st') ->
  indexOk unique st'.
Proof.
  intros Hidx Hadd.
  destruct (add_some _ _ _ _ _ _ Hadd) as (_ & _ & Hc & ->).
  unfold indexOk. cbn [Store.records].
  apply indexOk_place; assumption.
Qed.

Lemma indexOk_drop k l :
  (forall k' v', In (k', v') l -> Store.clashes unique k' v' l = false) ->
  forall k' v', In (k', v') (Store.drop k l) ->
    Store.clashes unique k' v' (Store.drop k l) = false.
Proof.
  intros Hidx k' v' Hin. apply in_drop in Hin.
  apply existsb_drop. apply Hidx. tauto.
Qed.

Lemma indexOk_put k v st st' :
  indexOk unique st -> Store.put unique k v st = Some st' -> indexOk unique st'.
Proof.
  intros Hidx. unfold Store.put.
  destruct (Store.clashes unique k v (Store.records st)) eqn:Hc; [discriminate|].
  intros [= <-]. unfold indexOk. cbn [Store.records].
  apply indexOk_place.
  - apply indexOk_drop. exact Hidx.
  - apply existsb_drop. exact Hc.
Qed.

Lemma indexOk_delete k st : indexOk unique st -> indexOk unique (Store.delete k st).
Proof.
  intros Hidx. unfold indexOk. cbn [Store.delete Store.records].
  apply indexOk_drop. exact Hidx.
Qed.

Lemma keysOk_addAll (inputs : list (option Z * V)) st st' :
  keysOk st -> Store.addAll unique inputs st = Some st' -> keysOk st'.
Proof.
  revert st. induction inputs as [|[key v] tl IH]; cbn [Store.addAll]; intros st Hk.
  - intros [= <-]. exact Hk.
  - destruct (Store.add unique key v st) as [[k st1]|] eqn:Ha; [|discriminate].
    apply IH. eapply keysOk_add; eauto.
Qed.

Lemma indexOk_addAll (inputs : list (option Z * V)) st st' :
  indexOk unique st -> Store.addAll unique inputs st = Some st' -> indexOk unique st'.
Proof.
  revert st. induction inputs as [|[key v] tl IH]; cbn [Store.addAll]; intros st Hk.
  - intros [= <-]. exact Hk.
  - destruct (Store.add unique key v st) as [[k st1]|] eqn:Ha; [|discriminate].
    apply IH. eapply indexOk_add; eauto.
Qed.

Lemma keysOk_fold_delete (dead : list (Z * V)) st :
  keysOk st -> keysOk (fold_left (fun st a => Store.delete (fst a) st) dead st).
Proof.
  revert st. induction dead as [|a tl IH]; cbn [fold_left]; intros st Hk.
  - exact Hk.
  - apply IH, keysOk_delete, Hk.
Qed.

Lemma indexOk_fold_delete (dead : list (Z * V)) st :
  indexOk unique st ->
  indexOk unique (fold_left (fun st a => Store.delete (fst a) st) dead st).
Proof.
  revert st. induction dead as [|a tl IH]; cbn [fold_left]; intros st Hk.
  - exact Hk.
  - apply IH, indexOk_delete, Hk.
Qed.

End StoreFacts.

(** ** The local service: what a call changes *)

(** Unfolds the plumbing of [Async] around the store requests. *)
Ltac run :=
  unfold tryCatch, bind, query, ret, IndexedDBService.transactionAdd,
    IndexedDBService.transactionPut, IndexedDBService.transactionDelete,
    IndexedDBService.deleteEach;
  cbn [view update uniqueIndex ROOMS EMPLOYEES ACCESS_RIGHTS fst snd].

Section ServiceFacts.

Variable env : Environment.

Lemma addPendingChange_cases op ety d s :
  (IndexedDBService.hasPending (randomUUID env (draws s)) (pendingChanges s) = false
   /\ IndexedDBService.addPendingChange env op ety d s
      = (Resolved tt,
         setPendingChanges
           (IndexedDBService.placePending (nextChange env op ety d s) (pendingChanges s))
           (tick s)))
  \/ (IndexedDBService.hasPending (randomUUID env (draws s)) (pendingChanges s) = true
      /\ IndexedDBService.addPendingChange env op ety d s
         = (Rejected ConstraintError, tick s)).
Proof.
  unfold IndexedDBService.addPendingChange, nextChange.
  cbn [PendingChange.id tick pendingChanges].
  destruct (IndexedDBService.hasPending _ _); [right|left]; split; reflexivity.
Qed.

Lemma addPendingChange_frame op ety d s res s' :
  IndexedDBService.addPendingChange env op ety d s = (res, s') ->
  rooms s' = rooms s /\ employees s' = employees s
  /\ accessRights s' = accessRights s /\ draws s' = S (draws s)
  /\ (res = Resolved tt \/ res = Rejected ConstraintError).
Proof.
  destruct (addPendingChange_cases op ety d s) as [[_ ->]|[_ ->]];
    intros [= <- <-]; cbn; auto 6.
Qed.

(** No index of the rooms store is unique. *)
Lemma rooms_never_clash (k : Z) (v : Room.fields) (l : list Room.t) :
  Store.clashes Room.unique k v l = false.
Proof.
  unfold Store.clashes, Room.unique.
  induction l as [|x tl IH]; cbn [existsb]; [reflexivity|].
  rewrite andb_false_r. exact IH.
Qed.

(** [createRoom] of a value without id never rejects on the content of
    the room: with intact keys, a key generator that is not exhausted
    and a fresh change id it stores the room under the next generated
    key and returns it. *)
Lemma createRoom_resolves (s : State) (room : Room.fields) :
  keysOk (rooms s) ->
  Store.keyGenerator (rooms s) <= Store.maxKey ->
  IndexedDBService.hasPending (randomUUID env (draws s)) (pendingChanges s) = false ->
  exists s',
    IndexedDBService.createRoom env (None, room) s
    = (Resolved (Store.keyGenerator (rooms s), room), s')
    /\ Store.records (rooms s')
       = Store.place (Store.keyGenerator (rooms s)) room (Store.records (rooms s))
    /\ IndexedDBService.getRoomById (Store.keyGenerator (rooms s)) s = None.
Proof.
  intros [_ Hbelow] Hmax Hfresh. unfold IndexedDBService.createRoom. run.
  rewrite (add_generated _ _ _ Hbelow Hmax), rooms_never_clash.
  unfold IndexedDBService.getRoomById, Store.get.
  rewrite (lookup_none_below _ _ Hbelow Hmax).
  match goal with
  | |- context [IndexedDBService.addPendingChange env ?op ?ety ?d ?s0] =>
      destruct (addPendingChange_cases op ety d s0) as [[_ E]|[E _]];
      [rewrite E|cbn [pendingChanges draws setRooms] in E; congruence]
  end.
  eexists. repeat split.
Qed.

(** Away from the id 0 the revocation of an absent pair is a no-op: for
    non-zero ids, revoking a pair that has no AccessRight row resolves
    to [true] and leaves the whole state as it was: stores, pending
    changes and environment draws. *)
Lemma revokeAccess_absent_pair (s : State) (employeeId roomId : Z) :
  employeeId <> 0 -> roomId <> 0 ->
  rowsFor employeeId roomId s = [] ->
  IndexedDBService.revokeAccess env employeeId roomId s = (Resolved true, s).
Proof.
  intros He Hr Hrows. unfold IndexedDBService.revokeAccess. run.
  rewrite (getAccessRights_pair _ _ s He Hr), Hrows. reflexivity.
Qed.

(** C2 (as amended). For a non-zero id and intact accessRights keys,
    [deleteRoom] does not fail when the room is absent.  It removes the
    Room of that id when there is one and no other Room, and removes
    exactly the AccessRight rows whose [roomId] is the id.  With a fresh
    change id it then records one delete/room pending change, carrying
    the room read before the deletion, and resolves to [true]; otherwise
    the recording rejects, nothing is recorded, the deletions stay and it
    resolves to [false]. *)
Theorem deleteRoom_cascade (s : State) (roomId : Z) :
  roomId <> 0 ->
  keysOk (accessRights s) ->
  let fresh :=
    negb (IndexedDBService.hasPending (randomUUID env (draws s)) (pendingChanges s)) in
  exists s',
    IndexedDBService.deleteRoom env roomId s = (Resolved fresh, s')
    /\ IndexedDBService.getRoomById roomId s' = None
    /\ Store.records (rooms s')
       = filter (fun r => negb (fst r =? roomId)) (Store.records (rooms s))
    /\ Store.records (accessRights s')
       = filter (fun a => negb (AccessRight.roomId (snd a) =? roomId))
                (Store.records (accessRights s))
    /\ pendingChanges s'
       = if fresh
         then IndexedDBService.placePending
                (nextChange env Delete RoomEntity
                   (DeletedRoom roomId (IndexedDBService.getRoomById roomId s)) s)
                (pendingChanges s)
         else pendingChanges s.
Proof.
  intros Hr [Hnd _] fresh. unfold IndexedDBService.deleteRoom. run.
  rewrite getAccessRights_room by exact Hr.
  cbn [accessRights setRooms].
  assert (Hget : forall st l n,
            IndexedDBService.getRoomById roomId
              (mkState (Store.delete roomId (rooms s)) (employees s) st l n) = None).
  { intros st l n. unfold IndexedDBService.getRoomById, Store.get.
    cbn [rooms Store.delete Store.records]. rewrite lookup_drop_same. reflexivity. }
  assert (Hacc :
    Store.records
      (fold_left (fun st a => Store.delete (fst a) st)
         (filter (fun a => AccessRight.roomId (snd a) =? roomId)
                 (Store.records (accessRights s)))
         (accessRights s))
    = filter (fun a => negb (AccessRight.roomId (snd a) =? roomId))
             (Store.records (accessRights s))).
  { rewrite fold_delete_records. apply delete_selected. exact Hnd. }
  match goal with
  | |- context [IndexedDBService.addPendingChange env ?op ?ety ?d ?s0] =>
      destruct (addPendingChange_cases op ety d s0) as [[E ->]|[E ->]]
  end;
    cbn [pendingChanges draws setAccessRights setRooms] in E;
    subst fresh; rewrite E; cbn [negb];
    eexists; (split; [reflexivity|]);
    (split; [apply Hget|split; [reflexivity|split; [exact Hacc|reflexivity]]]).
Qed.

Lemma updateEmployee_effect (k : Z) (v : Employee.fields) (s : State) res s' :
  IndexedDBService.updateEmployee env (k, v) s = (res, s') ->
  rooms s' = rooms s /\ accessRights s' = accessRights s
  /\ employees s'
     = match Store.put Employee.unique k v (employees s) with
       | Some st => st
       | None => employees s
       end
  /\ exists b, res = Resolved b.
Proof.
  unfold IndexedDBService.updateEmployee. run.
  destruct (Store.put Employee.unique k v (employees s)) as [st|].
  - match goal with
    | |- context [IndexedDBService.addPendingChange env ?op ?ety ?d ?s0] =>
        destruct (addPendingChange_cases op ety d s0) as [[_ ->]|[_ ->]]
    end; intros [= <- <-]; cbn; eauto.
  - intros [= <- <-]. eauto.
Qed.

Lemma includes_count (l : list Z) (x : Z) :
  includes l x = false <-> count_occ Z.eq_dec l x = 0%nat.
Proof.
  unfold includes. induction l as [|y tl IH]; cbn [existsb count_occ].
  - tauto.
  - destruct (Z.eq_dec y x) as [->|Hne].
    + rewrite Z.eqb_refl. cbn [orb]. split; intros H; discriminate.
    + destruct (Z.eqb_spec x y); [congruence|]. exact IH.
Qed.

Lemma no_row_no_clash (k e r : Z) (s : State) :
  rowsFor e r s = [] ->
  Store.clashes AccessRight.unique k (AccessRight.mk e r)
    (Store.records (accessRights s)) = false.
Proof.
  unfold rowsFor, Store.clashes. intros Hrows.
  destruct (existsb _ _) eqn:Hex; [|reflexivity].
  apply existsb_exists in Hex. destruct Hex as (a & Hin & Ha).
  apply andb_true_iff in Ha. destruct Ha as [_ Ha].
  unfold AccessRight.unique in Ha. cbn [AccessRight.employeeId AccessRight.roomId] in Ha.
  assert (Hf : In a (filter (fun a => (AccessRight.employeeId (snd a) =? e)
                                      && (AccessRight.roomId (snd a) =? r))
                            (Store.records (accessRights s)))).
  { apply filter_In. split; [exact Hin|].
    apply andb_true_iff in Ha. destruct Ha as [H1 H2].
    rewrite Z.eqb_sym in H1. rewrite Z.eqb_sym in H2. rewrite H1, H2. reflexivity. }
  rewrite Hrows in Hf. destruct Hf.
Qed.

Lemma put_keeps_index (k : Z) (v w : Employee.fields) (st : Store.t Employee.fields) :
  indexOk Employee.unique st ->
  Store.get k st = Some v ->
  Employee.employeeId w = Employee.employeeId v ->
  Store.put Employee.unique k w st
  = Some (Store.mk (Store.place k w (Store.drop k (Store.records st)))
                   (Store.bump k (Store.keyGenerator st))).
Proof.
  intros Hidx Hget Hsame. unfold Store.put.
  assert (Hc : Store.clashes Employee.unique k w (Store.records st)
               = Store.clashes Employee.unique k v (Store.records st)).
  { unfold Store.clashes, Employee.unique. rewrite Hsame. reflexivity. }
  rewrite Hc, (Hidx k v (lookup_in _ _ _ Hget)). reflexivity.
Qed.

Lemma getEmployeeById_get (id : Z) (e : Employee.fields) (s : State) :
  IndexedDBService.getEmployeeById id s = Some (id, e)
  <-> Store.get id (employees s) = Some e.
Proof.
  unfold IndexedDBService.getEmployeeById.
  destruct (Store.get id (employees s)); cbn [option_map];
    split; intros H; try discriminate; congruence.
Qed.

Lemma includes_In (l : list Z) (x : Z) : includes l x = true <-> In x l.
Proof.
  unfold includes. rewrite existsb_exists. split.
  - intros (y & Hy & Hxy). apply Z.eqb_eq in Hxy. subst. exact Hy.
  - intros H. exists x. split; [exact H|apply Z.eqb_refl].
Qed.

(** A grant of a pair without row fails when the accessRights store
    cannot generate a key any more: the [ConstraintError] of [add] is
    caught, the answer is [false] and nothing has changed. *)
Lemma grantAccess_exhausted (s : State) (e r : Z) :
  e <> 0 -> r <> 0 ->
  rowsFor e r s = [] ->
  Store.maxKey < Store.keyGenerator (accessRights s) ->
  IndexedDBService.grantAccess env e r s = (Resolved false, s).
Proof.
  intros He Hr Hrows Hmax. unfold IndexedDBService.grantAccess. run.
  rewrite (getAccessRights_pair _ _ s He Hr), Hrows.
  rewrite (add_exhausted _ _ _ Hmax). reflexivity.
Qed.

(** What a grant of a pair without row does to the three entity stores,
    whether or not the recording of its pending changes succeeds. *)
Lemma grantAccess_effect (s : State) (e r : Z) res s' :
  e <> 0 -> r <> 0 ->
  rowsFor e r s = [] ->
  keysOk (accessRights s) ->
  Store.keyGenerator (accessRights s) <= Store.maxKey ->
  IndexedDBService.grantAccess env e r s = (res, s') ->
  rooms s' = rooms s
  /\ Store.records (accessRights s')
     = Store.place (Store.keyGenerator (accessRights s)) (AccessRight.mk e r)
         (Store.records (accessRights s))
  /\ employees s'
     = match Store.get e (employees s) with
       | Some emp =>
           if includes (Employee.accessRooms emp) r then employees s
           else match Store.put Employee.unique e
                        (Employee.setAccessRooms (Employee.accessRooms emp ++ [r]) emp)
                        (employees s) with
                | Some st => st
                | None => employees s
                end
       | None => employees s
       end
  /\ exists b, res = Resolved b.
Proof.
  intros He Hr Hrows [_ Hbelow] Hmax.
  unfold IndexedDBService.grantAccess. run.
  rewrite (getAccessRights_pair _ _ s He Hr), Hrows.
  rewrite (add_generated _ _ _ Hbelow Hmax).
  rewrite (no_row_no_clash _ _ _ _ Hrows).
  unfold IndexedDBService.getEmployeeById.
  cbn [employees setAccessRights].
  destruct (Store.get e (employees s)) as [emp|]; cbn [option_map].
  - destruct (includes (Employee.accessRooms emp) r).
    + match goal with
      | |- context [IndexedDBService.addPendingChange env ?op ?ety ?d ?s0] =>
          destruct (IndexedDBService.addPendingChange env op ety d s0)
            as [res2 s2] eqn:Ep;
          destruct (addPendingChange_frame _ _ _ _ _ _ Ep)
            as (Hr2 & He2 & Ha2 & _ & [->| ->])
      end; intros [= <- <-]; rewrite Hr2, He2, Ha2; eauto.
    + match goal with
      | |- context [IndexedDBService.updateEmployee env (?k, ?v) ?s0] =>
          destruct (IndexedDBService.updateEmployee env (k, v) s0)
            as [res1 s1] eqn:Eu;
          destruct (updateEmployee_effect _ _ _ _ _ Eu)
            as (Hr1 & Ha1 & He1 & b1 & ->)
      end.
      cbn [employees accessRights rooms setAccessRights] in Hr1, Ha1, He1.
      match goal with
      | |- context [IndexedDBService.addPendingChange env ?op ?ety ?d ?s0] =>
          destruct (IndexedDBService.addPendingChange env op ety d s0)
            as [res2 s2] eqn:Ep;
          destruct (addPendingChange_frame _ _ _ _ _ _ Ep)
            as (Hr2 & He2 & Ha2 & _ & [->| ->])
      end; intros [= <- <-]; rewrite Hr2, He2, Ha2, Hr1, He1, Ha1; eauto.
  - match goal with
    | |- context [IndexedDBService.addPendingChange env ?op ?ety ?d ?s0] =>
        destruct (IndexedDBService.addPendingChange env op ety d s0)
          as [res2 s2] eqn:Ep;
        destruct (addPendingChange_frame _ _ _ _ _ _ Ep)
          as (Hr2 & He2 & Ha2 & _ & [->| ->])
    end; intros [= <- <-]; rewrite Hr2, He2, Ha2; eauto.
Qed.

(** The first grant of a pair to a stored employee: one row is added
    under the next generated key and the room is appended to the
    employee's [accessRooms]. *)
Lemma grantAccess_fresh (s : State) (e r : Z) (emp : Employee.fields) :
  e <> 0 -> r <> 0 ->
  rowsFor e r s = [] ->
  keysOk (accessRights s) ->
  Store.keyGenerator (accessRights s) <= Store.maxKey ->
  indexOk Employee.unique (employees s) ->
  Store.get e (employees s) = Some emp ->
  includes (Employee.accessRooms emp) r = false ->
  exists b s',
    IndexedDBService.grantAccess env e r s = (Resolved b, s')
    /\ Store.records (accessRights s')
       = Store.place (Store.keyGenerator (accessRights s)) (AccessRight.mk e r)
           (Store.records (accessRights s))
    /\ Store.records (employees s')
       = Store.place e
           (Employee.setAccessRooms (Employee.accessRooms emp ++ [r]) emp)
           (Store.drop e (Store.records (employees s)))
    /\ rooms s' = rooms s.
Proof.
  intros He Hr Hrows Hkeys Hmax Hidx Hget Hinc.
  destruct (IndexedDBService.grantAccess env e r s) as [res s'] eqn:Hrun.
  destruct (grantAccess_effect s e r res s' He Hr Hrows Hkeys Hmax Hrun)
    as (Hrooms & Hacc & Hemp & b & ->).
  rewrite Hget, Hinc in Hemp.
  rewrite (put_keeps_index e emp
             (Employee.setAccessRooms (Employee.accessRooms emp ++ [r]) emp)
             _ Hidx Hget eq_refl) in Hemp.
  exists b, s'. rewrite Hemp. auto.
Qed.

Lemma grantAccess_existing (s : State) (e r : Z) :
  e <> 0 -> r <> 0 -> rowsFor e r s <> [] ->
  IndexedDBService.grantAccess env e r s = (Resolved true, s).
Proof.
  intros He Hr Hrows. unfold IndexedDBService.grantAccess. run.
  rewrite (getAccessRights_pair _ _ s He Hr).
  destruct (rowsFor e r s); [contradiction|reflexivity].
Qed.

(** The index [unique_access] leaves at most one row per pair. *)
Lemma unique_access_one_row (e r : Z) (s : State) :
  keysOk (accessRights s) ->
  indexOk AccessRight.unique (accessRights s) ->
  (length (rowsFor e r s) <= 1)%nat.
Proof.
  intros [Hnd _] Hidx. unfold rowsFor, indexOk in *.
  induction (Store.records (accessRights s)) as [|[k v] tl IH]; cbn [filter].
  - cbn. lia.
  - cbn [map fst] in Hnd. inversion Hnd as [|? ? Hnotin Hnd']; subst.
    assert (Htl : forall k0 v0, In (k0, v0) tl ->
              Store.clashes AccessRight.unique k0 v0 tl = false).
    { intros k0 v0 Hin. specialize (Hidx k0 v0 (or_intror Hin)).
      unfold Store.clashes in Hidx. cbn [existsb] in Hidx.
      apply orb_false_iff in Hidx. tauto. }
    cbn [snd]. destruct ((AccessRight.employeeId v =? e)
                         && (AccessRight.roomId v =? r)) eqn:Hp.
    + destruct (filter _ tl) as [|[k' v'] rest] eqn:Hf; [cbn; lia|exfalso].
      assert (Hin : In (k', v') (filter
                (fun a => (AccessRight.employeeId (snd a) =? e)
                          && (AccessRight.roomId (snd a) =? r)) tl))
        by (rewrite Hf; left; reflexivity).
      apply filter_In in Hin. destruct Hin as [Hin Hq]. cbn [snd] in Hq.
      specialize (Hidx k v (or_introl eq_refl)).
      unfold Store.clashes in Hidx. cbn [existsb] in Hidx.
      apply orb_false_iff in Hidx. destruct Hidx as [_ Hidx].
      assert (Hex : existsb (fun kv => negb (fst kv =? k)
                                       && AccessRight.unique v (snd kv)) tl = true).
      { apply existsb_exists. exists (k', v'). split; [exact Hin|].
        cbn [fst snd]. apply andb_true_iff. split.
        - destruct (Z.eqb_spec k' k) as [->|]; [|reflexivity].
          exfalso. apply Hnotin. apply in_map_iff. exists (k, v'). auto.
        - unfold AccessRight.unique.
          apply andb_true_iff in Hp. apply andb_true_iff in Hq.
          destruct Hp as [H1 H2], Hq as [H3 H4].
          apply Z.eqb_eq in H1, H2, H3, H4.
          rewrite H1, H2, H3, H4, !Z.eqb_refl. reflexivity. }
      congruence.
    + apply IH; assumption.
Qed.

(** Away from the id 0: for non-zero ids, a key generator that is not
    exhausted and a stored employee whose [accessRooms] lists the room
    as often as the pair has rows, two calls of [grantAccess(e, r)]
    leave exactly one AccessRight row for the pair and [r] exactly once
    in [accessRooms]; the second call resolves to [true] and changes
    nothing. *)
Lemma grantAccess_twice (s : State) (e r : Z) (emp : Employee.fields) :
  e <> 0 -> r <> 0 ->
  keysOk (accessRights s) ->
  Store.keyGenerator (accessRights s) <= Store.maxKey ->
  indexOk AccessRight.unique (accessRights s) ->
  indexOk Employee.unique (employees s) ->
  Store.get e (employees s) = Some emp ->
  count_occ Z.eq_dec (Employee.accessRooms emp) r = length (rowsFor e r s) ->
  exists b1 s1,
    IndexedDBService.grantAccess env e r s = (Resolved b1, s1)
    /\ IndexedDBService.grantAccess env e r s1 = (Resolved true, s1)
    /\ length (rowsFor e r s1) = 1%nat
    /\ exists emp1,
         Store.get e (employees s1) = Some emp1
         /\ count_occ Z.eq_dec (Employee.accessRooms emp1) r = 1%nat.
Proof.
  intros He Hr Hkeys Hmax Hacc Hidx Hget Hcount.
  pose proof (unique_access_one_row e r s Hkeys Hacc) as Hle.
  destruct (rowsFor e r s) as [|a rest] eqn:Hrows.
  - cbn [length] in Hcount. apply includes_count in Hcount.
    destruct (grantAccess_fresh s e r emp He Hr Hrows Hkeys Hmax Hidx Hget Hcount)
      as (b & s1 & Hrun & Hrec & Hemp & _).
    assert (Hone : length (rowsFor e r s1) = 1%nat).
    { unfold rowsFor in *.
      rewrite Hrec, (filter_place (V:=AccessRight.fields)), Hrows.
      cbn [snd AccessRight.employeeId AccessRight.roomId].
      rewrite !Z.eqb_refl. reflexivity. }
    exists b, s1. split; [exact Hrun|]. split; [|split; [exact Hone|]].
    + apply grantAccess_existing; try assumption.
      intros Hnil. rewrite Hnil in Hone. discriminate.
    + eexists. split.
      * unfold Store.get. rewrite Hemp.
        apply lookup_place_same, lookup_drop_same.
      * cbn [Employee.setAccessRooms Employee.accessRooms].
        rewrite count_occ_app. apply includes_count in Hcount.
        rewrite Hcount. cbn [count_occ].
        destruct (Z.eq_dec r r); [reflexivity|contradiction].
  - assert (Hone : length (rowsFor e r s) = 1%nat)
      by (rewrite Hrows in *; cbn [length] in *; lia).
    assert (Hrun : IndexedDBService.grantAccess env e r s = (Resolved true, s))
      by (apply grantAccess_existing; try assumption; rewrite Hrows; discriminate).
    exists true, s. repeat split; try assumption.
    exists emp. split; [exact Hget|]. rewrite Hcount, <- Hrows. exact Hone.
Qed.

End ServiceFacts.

(** ** Every call of the local service keeps the stores intact *)

Create HintDb intact.

Section Integrity.

Variable env : Environment.

Lemma preserves_ret {A} (I : State -> Prop) (a : A) : preserves I (ret a).
Proof. intros s H. exact H. Qed.

Lemma preserves_query {A} (I : State -> Prop) (f : State -> A) :
  preserves I (query f).
Proof. intros s H. exact H. Qed.

Lemma preserves_bind {A B} (I : State -> Prop) (m : Async A) (k : A -> Async B) :
  preserves I m -> (forall a, preserves I (k a)) -> preserves I (bind m k).
Proof.
  intros Hm Hk s H. unfold bind. specialize (Hm s H).
  destruct (m s) as [[a|e|] s1]; cbn [snd] in *; [apply Hk|..]; exact Hm.
Qed.

Lemma preserves_tryCatch {A} (I : State -> Prop) (m h : Async A) :
  preserves I m -> preserves I h -> preserves I (tryCatch m h).
Proof.
  intros Hm Hh s H. unfold tryCatch. specialize (Hm s H).
  destruct (m s) as [[a|e|] s1]; cbn [snd] in *; [|apply Hh|]; exact Hm.
Qed.

Lemma employee_unique_sym (a b : Employee.fields) :
  Employee.unique a b = Employee.unique b a.
Proof. apply String.eqb_sym. Qed.

Lemma access_unique_sym (a b : AccessRight.fields) :
  AccessRight.unique a b = AccessRight.unique b a.
Proof.
  unfold AccessRight.unique.
  rewrite (Z.eqb_sym (AccessRight.employeeId a)), (Z.eqb_sym (AccessRight.roomId a)).
  reflexivity.
Qed.

Lemma intact_addPendingChange op ety d :
  preserves intact (IndexedDBService.addPendingChange env op ety d).
Proof.
  intros s H.
  destruct (IndexedDBService.addPendingChange env op ety d s) as [res s'] eqn:E.
  destruct (addPendingChange_frame env _ _ _ _ _ _ E) as (Hr & He & Ha & _).
  unfold intact in *. cbn [snd]. rewrite Hr, He, Ha. exact H.
Qed.

Lemma intact_add_room room :
  preserves intact (IndexedDBService.transactionAdd ROOMS room).
Proof.
  intros s (Hr & He & Ha & Hie & Hia). unfold IndexedDBService.transactionAdd.
  cbn [view update uniqueIndex ROOMS].
  destruct (Store.add Room.unique (fst room) (snd room) (rooms s))
    as [[k st]|] eqn:E; cbn [snd]; unfold intact;
    cbn [rooms employees accessRights setRooms]; eauto 10 using keysOk_add.
Qed.

Lemma intact_add_employee employee :
  preserves intact (IndexedDBService.transactionAdd EMPLOYEES employee).
Proof.
  intros s (Hr & He & Ha & Hie & Hia). unfold IndexedDBService.transactionAdd.
  cbn [view update uniqueIndex EMPLOYEES].
  destruct (Store.add Employee.unique (fst employee) (snd employee) (employees s))
    as [[k st]|] eqn:E; cbn [snd]; unfold intact;
    cbn [rooms employees accessRights setEmployees];
    eauto 10 using keysOk_add, indexOk_add, employee_unique_sym.
Qed.

Lemma intact_add_access access :
  preserves intact (IndexedDBService.transactionAdd ACCESS_RIGHTS access).
Proof.
  intros s (Hr & He & Ha & Hie & Hia). unfold IndexedDBService.transactionAdd.
  cbn [view update uniqueIndex ACCESS_RIGHTS].
  destruct (Store.add AccessRight.unique (fst access) (snd access) (accessRights s))
    as [[k st]|] eqn:E; cbn [snd]; unfold intact;
    cbn [rooms employees accessRights setAccessRights];
    eauto 10 using keysOk_add, indexOk_add, access_unique_sym.
Qed.

Lemma intact_put_room room :
  preserves intact (IndexedDBService.transactionPut ROOMS room).
Proof.
  intros s (Hr & He & Ha & Hie & Hia). unfold IndexedDBService.transactionPut.
  cbn [view update uniqueIndex ROOMS].
  destruct (Store.put Room.unique (fst room) (snd room) (rooms s))
    as [st|] eqn:E; cbn [snd]; unfold intact;
    cbn [rooms employees accessRights setRooms]; eauto 10 using keysOk_put.
Qed.

Lemma intact_put_employee employee :
  preserves intact (IndexedDBService.transactionPut EMPLOYEES employee).
Proof.
  intros s (Hr & He & Ha & Hie & Hia). unfold IndexedDBService.transactionPut.
  cbn [view update uniqueIndex EMPLOYEES].
  destruct (Store.put Employee.unique (fst employee) (snd employee) (employees s))
    as [st|] eqn:E; cbn [snd]; unfold intact;
    cbn [rooms employees accessRights setEmployees];
    eauto 10 using keysOk_put, indexOk_put, employee_unique_sym.
Qed.

Lemma intact_delete_room k :
  preserves intact (IndexedDBService.transactionDelete ROOMS k).
Proof.
  intros s (Hr & He & Ha & Hie & Hia). unfold IndexedDBService.transactionDelete, intact.
  cbn [view update ROOMS snd rooms employees accessRights setRooms].
  auto 10 using keysOk_delete.
Qed.

Lemma intact_delete_employee k :
  preserves intact (IndexedDBService.transactionDelete EMPLOYEES k).
Proof.
  intros s (Hr & He & Ha & Hie & Hia). unfold IndexedDBService.transactionDelete, intact.
  cbn [view update EMPLOYEES snd rooms employees accessRights setEmployees].
  auto 10 using keysOk_delete, indexOk_delete.
Qed.

Lemma intact_deleteEach l : preserves intact (IndexedDBService.deleteEach l).
Proof.
  intros s (Hr & He & Ha & Hie & Hia). unfold IndexedDBService.deleteEach, intact.
  cbn [snd rooms employees accessRights setAccessRights].
  auto 10 using keysOk_fold_delete, indexOk_fold_delete.
Qed.

Lemma intact_bulkImportRooms l :
  preserves intact (IndexedDBService.bulkImportRooms env l).
Proof.
  intros s H. unfold IndexedDBService.bulkImportRooms, IndexedDBService.bulkImport.
  cbn [view update uniqueIndex ROOMS].
  destruct (Store.addAll Room.unique l (rooms s)) as [st|] eqn:E; [|exact H].
  assert (H1 : intact (setRooms st s)).
  { destruct H as (Hr & He & Ha & Hie & Hia). unfold intact.
    cbn [rooms employees accessRights setRooms]. eauto 10 using keysOk_addAll. }
  pose proof (intact_addPendingChange Bulk RoomEntity (RoomsData l) _ H1) as H2.
  destruct (IndexedDBService.addPendingChange _ _ _ _ _) as [[u|e|] s2]; exact H2.
Qed.

Lemma intact_bulkImportEmployees l :
  preserves intact (IndexedDBService.bulkImportEmployees env l).
Proof.
  intros s H. unfold IndexedDBService.bulkImportEmployees, IndexedDBService.bulkImport.
  cbn [view update uniqueIndex EMPLOYEES].
  destruct (Store.addAll Employee.unique l (employees s)) as [st|] eqn:E; [|exact H].
  assert (H1 : intact (setEmployees st s)).
  { destruct H as (Hr & He & Ha & Hie & Hia). unfold intact.
    cbn [rooms employees accessRights setEmployees].
    eauto 10 using keysOk_addAll, indexOk_addAll, employee_unique_sym. }
  pose proof (intact_addPendingChange Bulk EmployeeEntity (EmployeesData l) _ H1) as H2.
  destruct (IndexedDBService.addPendingChange _ _ _ _ _) as [[u|e|] s2]; exact H2.
Qed.

Lemma intact_bulkImportAccessRights l :
  preserves intact (IndexedDBService.bulkImportAccessRights env l).
Proof.
  intros s H.
  unfold IndexedDBService.bulkImportAccessRights, IndexedDBService.bulkImport.
  cbn [view update uniqueIndex ACCESS_RIGHTS].
  destruct (Store.addAll AccessRight.unique l (accessRights s)) as [st|] eqn:E;
    [|exact H].
  assert (H1 : intact (setAccessRights st s)).
  { destruct H as (Hr & He & Ha & Hie & Hia). unfold intact.
    cbn [rooms employees accessRights setAccessRights].
    eauto 10 using keysOk_addAll, indexOk_addAll, access_unique_sym. }
  pose proof (intact_addPendingChange Bulk AccessEntity (AccessRightsData l) _ H1) as H2.
  destruct (IndexedDBService.addPendingChange _ _ _ _ _) as [[u|e|] s2]; exact H2.
Qed.

Hint Resolve preserves_ret preserves_query preserves_tryCatch
  intact_addPendingChange intact_add_room intact_add_employee intact_add_access
  intact_put_room intact_put_employee intact_delete_room intact_delete_employee
  intact_deleteEach : intact.

Ltac keeps :=
  repeat first
    [ apply preserves_bind; [|intros ?]
    | match goal with
      | |- preserves _ (match ?x with _ => _ end) => destruct x
      end
    | solve [auto with intact] ].

Lemma intact_createRoom room : preserves intact (IndexedDBService.createRoom env room).
Proof. unfold IndexedDBService.createRoom. keeps. Qed.

Lemma intact_updateRoom room : preserves intact (IndexedDBService.updateRoom env room).
Proof. unfold IndexedDBService.updateRoom. apply preserves_tryCatch; keeps. Qed.

Lemma intact_deleteRoom k : preserves intact (IndexedDBService.deleteRoom env k).
Proof. unfold IndexedDBService.deleteRoom. apply preserves_tryCatch; keeps. Qed.

Lemma intact_createEmployee employee :
  preserves intact (IndexedDBService.createEmployee env employee).
Proof. unfold IndexedDBService.createEmployee. keeps. Qed.

Lemma intact_updateEmployee employee :
  preserves intact (IndexedDBService.updateEmployee env employee).
Proof. unfold IndexedDBService.updateEmployee. apply preserves_tryCatch; keeps. Qed.

Lemma intact_deleteEmployee k :
  preserves intact (IndexedDBService.deleteEmployee env k).
Proof. unfold IndexedDBService.deleteEmployee. apply preserves_tryCatch; keeps. Qed.

Hint Resolve intact_updateEmployee : intact.

Lemma intact_grantAccess e r : preserves intact (IndexedDBService.grantAccess env e r).
Proof. unfold IndexedDBService.grantAccess. apply preserves_tryCatch; keeps. Qed.

Lemma intact_revokeAccess e r :
  preserves intact (IndexedDBService.revokeAccess env e r).
Proof. unfold IndexedDBService.revokeAccess. apply preserves_tryCatch; keeps. Qed.

(** The empty database is intact, and so is every state a run of calls
    reaches from an intact one. *)
Lemma intact_emptyState : intact Sample.emptyState.
Proof.
  unfold intact. cbn. repeat split; try constructor; intros k v [].
Qed.

Lemma intact_perform (m : Mutation) (s : State) :
  intact s -> intact (snd (perform env m s)).
Proof.
  destruct m; cbn [perform]; unfold resolved, resolvedTrue; cbn [snd];
    [apply intact_createRoom|apply intact_updateRoom|apply intact_deleteRoom
    |apply intact_createEmployee|apply intact_updateEmployee
    |apply intact_deleteEmployee|apply intact_bulkImportRooms
    |apply intact_bulkImportEmployees|apply intact_bulkImportAccessRights].
Qed.

End Integrity.

(** ** Grants and revocations keep [accessRooms] in step with the rows *)

Section Agreement.

Variable env : Environment.

(** What a revocation of a pair with rows does to the entity stores. *)
Lemma revokeAccess_effect (s : State) (e r : Z) res s' :
  e <> 0 -> r <> 0 ->
  rowsFor e r s <> [] ->
  keysOk (accessRights s) ->
  IndexedDBService.revokeAccess env e r s = (res, s') ->
  rooms s' = rooms s
  /\ Store.records (accessRights s')
     = filter (fun a => negb ((AccessRight.employeeId (snd a) =? e)
                              && (AccessRight.roomId (snd a) =? r)))
              (Store.records (accessRights s))
  /\ employees s'
     = match Store.get e (employees s) with
       | Some emp =>
           match Store.put Employee.unique e
                   (Employee.setAccessRooms
                      (filter (fun x => negb (x =? r)) (Employee.accessRooms emp)) emp)
                   (employees s) with
           | Some st => st
           | None => employees s
           end
       | None => employees s
       end.
Proof.
  intros He Hr Hrows [Hnd _].
  unfold IndexedDBService.revokeAccess. run.
  rewrite (getAccessRights_pair _ _ s He Hr).
  destruct (rowsFor e r s) as [|a rest] eqn:Erows; [contradiction|].
  rewrite <- Erows. clear Hrows.
  unfold IndexedDBService.getEmployeeById.
  cbn [employees setAccessRights].
  assert (Hdel :
    Store.records
      (fold_left (fun st a => Store.delete (fst a) st) (rowsFor e r s) (accessRights s))
    = filter (fun a => negb ((AccessRight.employeeId (snd a) =? e)
                             && (AccessRight.roomId (snd a) =? r)))
             (Store.records (accessRights s))).
  { rewrite fold_delete_records. unfold rowsFor.
    apply (delete_selected
             (fun a => (AccessRight.employeeId (snd a) =? e)
                       && (AccessRight.roomId (snd a) =? r))).
    exact Hnd. }
  destruct (Store.get e (employees s)) as [emp|]; cbn [option_map].
  - match goal with
    | |- context [IndexedDBService.updateEmployee env (?k, ?v) ?s0] =>
        destruct (IndexedDBService.updateEmployee env (k, v) s0)
          as [res1 s1] eqn:Eu;
        destruct (updateEmployee_effect _ _ _ _ _ _ Eu)
          as (Hr1 & Ha1 & He1 & b1 & ->)
    end.
    cbn [employees accessRights rooms setAccessRights] in Hr1, Ha1, He1.
    match goal with
    | |- context [IndexedDBService.addPendingChange env ?op ?ety ?d ?s0] =>
        destruct (IndexedDBService.addPendingChange env op ety d s0)
          as [res2 s2] eqn:Ep;
        destruct (addPendingChange_frame _ _ _ _ _ _ _ Ep)
          as (Hr2 & He2 & Ha2 & _ & [->| ->])
    end; intros [= <- <-]; rewrite Hr2, He2, Ha2, Hr1, He1, Ha1, Hdel; auto.
  - match goal with
    | |- context [IndexedDBService.addPendingChange env ?op ?ety ?d ?s0] =>
        destruct (IndexedDBService.addPendingChange env op ety d s0)
          as [res2 s2] eqn:Ep;
        destruct (addPendingChange_frame _ _ _ _ _ _ _ Ep)
          as (Hr2 & He2 & Ha2 & _ & [->| ->])
    end; intros [= <- <-]; rewrite Hr2, He2, Ha2;
      cbn [rooms employees accessRights setAccessRights]; rewrite Hdel; auto.
Qed.

Lemma in_granted (x id : Z) (l : list AccessRight.t) :
  In x (map (fun a => AccessRight.roomId (snd a))
            (filter (fun a => AccessRight.employeeId (snd a) =? id) l))
  <-> exists k, In (k, AccessRight.mk id x) l.
Proof.
  rewrite in_map_iff. split.
  - intros ([k [e' r']] & Hx & Hin). apply filter_In in Hin.
    destruct Hin as [Hin Hid]. cbn in Hx, Hid. apply Z.eqb_eq in Hid.
    subst. exists k. exact Hin.
  - intros (k & Hin). exists (k, AccessRight.mk id x). split; [reflexivity|].
    apply filter_In. split; [exact Hin|]. cbn. apply Z.eqb_refl.
Qed.

(** X7. With intact stores, a grant keeps every stored employee's
    [accessRooms] equal, as a set, to the rooms of the employee's rows. *)
Lemma grantAccess_keeps_agreement (s : State) (e r : Z) res s' :
  e <> 0 -> r <> 0 ->
  keysOk (accessRights s) ->
  indexOk Employee.unique (employees s) ->
  cacheAgrees s ->
  IndexedDBService.grantAccess env e r s = (res, s') ->
  cacheAgrees s'.
Proof.
  intros He Hr Hkeys Hidx Hagree Hrun.
  destruct (rowsFor e r s) as [|a rest] eqn:Hrows.
  2:{ rewrite (grantAccess_existing env s e r He Hr) in Hrun
        by (rewrite Hrows; discriminate).
      injection Hrun as <- <-. exact Hagree. }
  destruct (Z.ltb_spec Store.maxKey (Store.keyGenerator (accessRights s)))
    as [Hfull|Hmax].
  { rewrite (grantAccess_exhausted env s e r He Hr Hrows Hfull) in Hrun.
    injection Hrun as <- <-. exact Hagree. }
  destruct (grantAccess_effect env s e r res s' He Hr Hrows Hkeys Hmax Hrun)
    as (_ & Hacc & Hemp & _).
  intros id emp' Hget x. apply getEmployeeById_get in Hget.
  unfold grantedRooms. rewrite Hacc, in_granted.
  assert (Hrow : (exists k, In (k, AccessRight.mk id x)
                    (Store.place (Store.keyGenerator (accessRights s))
                       (AccessRight.mk e r) (Store.records (accessRights s))))
                 <-> (id = e /\ x = r) \/ In x (grantedRooms id s)).
  { unfold grantedRooms. rewrite in_granted. split.
    - intros (k & Hin). apply in_place in Hin. destruct Hin as [Heq|Hin].
      + injection Heq as _ -> ->. left. auto.
      + right. exists k. exact Hin.
    - intros [[-> ->]|(k & Hin)]; eexists; apply in_place; eauto. }
  rewrite Hrow. clear Hrow. rewrite Hemp in Hget. clear Hemp Hacc.
  destruct (Store.get e (employees s)) as [emp|] eqn:Hge.
  - destruct (includes (Employee.accessRooms emp) r) eqn:Hinc.
    + pose proof (Hagree id emp' (proj2 (getEmployeeById_get _ _ _) Hget) x) as Hx.
      split; [tauto|]. intros [[-> ->]|Hin]; [|tauto].
      rewrite Hge in Hget. injection Hget as <-. apply includes_In. exact Hinc.
    + rewrite (put_keeps_index e emp
                 (Employee.setAccessRooms (Employee.accessRooms emp ++ [r]) emp)
                 _ Hidx Hge eq_refl) in Hget.
      unfold Store.get in Hget. cbn [Store.records] in Hget.
      destruct (Z.eq_dec id e) as [->|Hne].
      * rewrite lookup_place_same in Hget by apply lookup_drop_same.
        injection Hget as <-. cbn [Employee.setAccessRooms Employee.accessRooms].
        pose proof (Hagree e emp (proj2 (getEmployeeById_get _ _ _) Hge) x) as Hx.
        rewrite in_app_iff. cbn [In]. intuition congruence.
      * rewrite lookup_place_other, lookup_drop_other in Hget by exact Hne.
        pose proof (Hagree id emp' (proj2 (getEmployeeById_get _ _ _) Hget) x) as Hx.
        tauto.
  - pose proof (Hagree id emp' (proj2 (getEmployeeById_get _ _ _) Hget) x) as Hx.
    split; [tauto|]. intros [[-> _]|Hin]; [congruence|tauto].
Qed.

(** X8. With intact stores, a revocation keeps the agreement as well. *)
Lemma revokeAccess_keeps_agreement (s : State) (e r : Z) res s' :
  e <> 0 -> r <> 0 ->
  keysOk (accessRights s) ->
  indexOk Employee.unique (employees s) ->
  cacheAgrees s ->
  IndexedDBService.revokeAccess env e r s = (res, s') ->
  cacheAgrees s'.
Proof.
  intros He Hr Hkeys Hidx Hagree Hrun.
  destruct (rowsFor e r s) as [|a rest] eqn:Hrows.
  { unfold IndexedDBService.revokeAccess in Hrun. revert Hrun. run.
    rewrite (getAccessRights_pair _ _ s He Hr), Hrows.
    intros [= <- <-]. exact Hagree. }
  destruct (revokeAccess_effect s e r res s' He Hr) as (_ & Hacc & Hemp);
    [rewrite Hrows; discriminate|exact Hkeys|exact Hrun|].
  intros id emp' Hget x. apply getEmployeeById_get in Hget.
  assert (Hrow : In x (grantedRooms id s')
                 <-> In x (grantedRooms id s) /\ ~ (id = e /\ x = r)).
  { unfold grantedRooms. rewrite Hacc, !in_granted. split.
    - intros (k & Hin). apply filter_In in Hin. destruct Hin as [Hin Hp].
      cbn in Hp. split; [exists k; exact Hin|]. intros [-> ->].
      rewrite !Z.eqb_refl in Hp. discriminate.
    - intros [(k & Hin) Hnot]. exists k. apply filter_In. split; [exact Hin|].
      cbn. destruct (Z.eqb_spec id e), (Z.eqb_spec x r); try reflexivity.
      exfalso. apply Hnot. split; assumption. }
  rewrite Hrow. clear Hrow. rewrite Hemp in Hget. clear Hemp Hacc.
  destruct (Store.get e (employees s)) as [emp|] eqn:Hge.
  - rewrite (put_keeps_index e emp
               (Employee.setAccessRooms
                  (filter (fun x => negb (x =? r)) (Employee.accessRooms emp)) emp)
               _ Hidx Hge eq_refl) in Hget.
    unfold Store.get in Hget. cbn [Store.records] in Hget.
    destruct (Z.eq_dec id e) as [->|Hne].
    + rewrite lookup_place_same in Hget by apply lookup_drop_same.
      injection Hget as <-. cbn [Employee.setAccessRooms Employee.accessRooms].
      pose proof (Hagree e emp (proj2 (getEmployeeById_get _ _ _) Hge) x) as Hx.
      rewrite filter_In. destruct (Z.eqb_spec x r); cbn [negb];
        intuition congruence.
    + rewrite lookup_place_other, lookup_drop_other in Hget by exact Hne.
      pose proof (Hagree id emp' (proj2 (getEmployeeById_get _ _ _) Hget) x) as Hx.
      tauto.
  - pose proof (Hagree id emp' (proj2 (getEmployeeById_get _ _ _) Hget) x) as Hx.
    assert (Hne : id <> e) by (intros ->; congruence).
    tauto.
Qed.

End Agreement.

(** ** The outbox: recording order and draining order *)

Section Outbox.

Variable env : Environment.

Local Abbreviation ts := PendingChange.timestamp.

Lemma placePending_split (c : PendingChange.t) (l : list PendingChange.t) :
  exists l1 l2, l = l1 ++ l2 /\ IndexedDBService.placePending c l = l1 ++ c :: l2.
Proof.
  induction l as [|d tl IH]; cbn [IndexedDBService.placePending].
  - exists [], []. split; reflexivity.
  - destruct (String.ltb _ _).
    + exists [], (d :: tl). split; reflexivity.
    + destruct IH as (l1 & l2 & -> & ->). exists (d :: l1), l2.
      split; reflexivity.
Qed.





Lemma sortByTimestamp_length l :
  length (SyncService.sortByTimestamp l) = length l.
Proof.
  unfold SyncService.sortByTimestamp.
  induction l as [|d tl IH]; cbn [fold_right length]; [reflexivity|].
  rewrite <- IH. generalize (fold_right SyncService.insertByTimestamp [] tl).
  intros l. induction l as [|x xs IHx]; cbn [SyncService.insertByTimestamp length].
  - reflexivity.
  - destruct (ts d <=? ts x); cbn [length]; [reflexivity|]. rewrite IHx. reflexivity.
Qed.












End Outbox.

(** ** The sync service *)

Section Sync.

Variable env : Environment.
Context {Remote : Type}.
Variable server : Server Remote.

(** Only the two create methods of the server API let the error of
    [apiRequest] through; the other methods catch it, so that
    [processChange] returns normally for every other change. *)
Lemma processChange_catches (change : PendingChange.t) (remote : Remote) :
  PendingChange.operation change <> Create ->
  fst (SyncService.processChange server change remote) = Resolved tt.
Proof.
  intros Hop. unfold SyncService.processChange.
  destruct (PendingChange.operation change), (PendingChange.entityType change);
    try contradiction; try reflexivity;
    unfold ServerApiService.updateRoom, ServerApiService.updateEmployee,
      ServerApiService.deleteRoom, ServerApiService.deleteEmployee,
      ServerApiService.grantAccess, ServerApiService.revokeAccess,
      ServerApiService.bulkImportRooms, ServerApiService.bulkImportEmployees,
      ServerApiService.bulkImportAccessRights, ServerApiService.guarded,
      ServerApiService.request, tryCatch, bind, ret;
    match goal with
    | |- context [apiRequest server ?m ?d ?r] =>
        destruct (apiRequest server m d r) as [[|] ?]
    end; reflexivity.
Qed.

(** So every change that is not a create leaves the outbox when it is
    replayed, whether the server took it or not. *)
Lemma replay_discards (change : PendingChange.t) (db : State) (remote : Remote) :
  PendingChange.operation change <> Create ->
  fst (SyncService.replay server (db, remote) change)
  = snd (IndexedDBService.deletePendingChange (PendingChange.id change) db).
Proof.
  intros Hop. unfold SyncService.replay.
  pose proof (processChange_catches change remote Hop) as H.
  destruct (SyncService.processChange server change remote) as [res remote'].
  cbn [fst] in H. rewrite H. reflexivity.
Qed.

(** A created room whose request the server refuses stays queued. *)
Lemma replay_keeps_refused_room (i : string) (t : Z) (d : Payload)
    (db : State) (remote remote' : Remote) :
  apiRequest server CreateRoom d remote = (false, remote') ->
  SyncService.replay server (db, remote) (PendingChange.mk i t Create RoomEntity d)
  = (db, remote').
Proof.
  intros H. unfold SyncService.replay, SyncService.processChange,
    ServerApiService.createRoom, ServerApiService.request.
  cbn [PendingChange.operation PendingChange.entityType PendingChange.data].
  rewrite H. reflexivity.
Qed.

(** C8. [syncToServer] answers [false] and touches neither the outbox
    nor the server when the client is offline or a sync is in progress;
    otherwise it answers [true], whatever the server does with the
    entries, and leaves [isSyncing] reset. *)
Theorem syncToServer_result (onLine : bool) (svc : SyncService.t) (remote : Remote) :
  if onLine && negb (SyncService.isSyncing svc)
  then fst (SyncService.syncToServer env server onLine svc remote) = true
       /\ SyncService.isSyncing
            (fst (snd (SyncService.syncToServer env server onLine svc remote)))
          = false
  else SyncService.syncToServer env server onLine svc remote
       = (false, (svc, remote)).
Proof.
  unfold SyncService.syncToServer.
  destruct onLine, (SyncService.isSyncing svc); cbn [andb negb orb];
    try reflexivity.
  destruct (IndexedDBService.getPendingChanges (SyncService.localDb svc)).
  - split; reflexivity.
  - destruct (fold_left _ _ _). split; reflexivity.
Qed.

End Sync.

(** ** Scenarios on the sample data *)

Section Scenarios.

Import IndexedDBService.

(** [getAccessRights(0, 1)] answers the row of the pair (1, 5): the rows
    of employee 1, where a lookup of the pair (1, 0) would find nothing. *)
Lemma getAccessRights_zero_room_lists_employee :
  getAccessRights (Some 0) (Some 1) Sample.oneGrant = [(1, AccessRight.mk 1 5)]
  /\ rowsFor 1 0 Sample.oneGrant = [].
Proof. split; reflexivity. Qed.

(** C1. The agreement of [accessRooms] with the AccessRight rows does
    not survive [deleteRoom]: in a state where employee 1 holds the key
    of room 5 in both representations, [deleteRoom(5)] resolves to
    [true] and removes the row, and the stored employee still lists
    room 5. *)
Theorem deleteRoom_keeps_stale_accessRooms :
  cacheAgrees Sample.oneGrant
  /\ fst (deleteRoom Sample.env 5 Sample.oneGrant) = Resolved true
  /\ grantedRooms 1 (snd (deleteRoom Sample.env 5 Sample.oneGrant)) = []
  /\ getEmployeeById 1 (snd (deleteRoom Sample.env 5 Sample.oneGrant))
     = Some (1, Sample.ivanov [5])
  /\ ~ cacheAgrees (snd (deleteRoom Sample.env 5 Sample.oneGrant)).
Proof.
  split; [|split; [reflexivity|split; [reflexivity|split; [reflexivity|]]]].
  - intros id e Hget r. unfold getEmployeeById, Store.get in Hget.
    cbn [Sample.oneGrant employees Store.records Store.lookup] in Hget.
    destruct (Z.eqb_spec 1 id) as [<-|_]; cbn [option_map] in Hget;
      [|discriminate].
    injection Hget as <-. cbn. tauto.
  - intros Hagree.
    specialize (Hagree 1 (Sample.ivanov [5]) eq_refl 5).
    cbn in Hagree. tauto.
Qed.

(** C2, counterexample. No room has id 7, and [deleteRoom(7)] resolves
    to [true] and records a pending change. *)
Lemma deleteRoom_absent_room_resolves :
  getRoomById 7 Sample.oneGrant = None
  /\ fst (deleteRoom Sample.env 7 Sample.oneGrant) = Resolved true
  /\ pendingChanges Sample.oneGrant = []
  /\ map PendingChange.tag
       (pendingChanges (snd (deleteRoom Sample.env 7 Sample.oneGrant)))
     = [(Delete, RoomEntity)].
Proof. repeat split. Qed.

Lemma deleteRoom_cascade_witness :
  keysOk (accessRights Sample.oneGrant)
  /\ exists s',
      deleteRoom Sample.env 5 Sample.oneGrant = (Resolved true, s')
      /\ getRoomById 5 s' = None
      /\ Store.records (rooms s') = []
      /\ Store.records (accessRights s') = []
      /\ map PendingChange.tag (pendingChanges s') = [(Delete, RoomEntity)].
Proof.
  assert (Hkeys : keysOk (accessRights Sample.oneGrant)).
  { split; cbn.
    - constructor; [intros []|constructor].
    - repeat constructor. }
  split; [exact Hkeys|].
  destruct (deleteRoom_cascade Sample.env Sample.oneGrant 5) as (s' & H);
    [discriminate|exact Hkeys|].
  exists s'. cbn in H. destruct H as (H1 & H2 & H3 & H4 & H5).
  rewrite H5. repeat split; assumption.
Defined.

(** C3. Two [createRoom] calls with the same number and building both
    resolve: the second room gets id 2, both rooms are stored and two
    pending changes are recorded. *)
Theorem createRoom_accepts_duplicate :
  let twice :=
    (createRoom Sample.env (None, Sample.room101) ;;
     createRoom Sample.env (None, Sample.room101))%async Sample.emptyState in
  fst twice = Resolved (2, Sample.room101)
  /\ Store.records (rooms (snd twice)) = [(1, Sample.room101); (2, Sample.room101)]
  /\ map PendingChange.tag (pendingChanges (snd twice))
     = [(Create, RoomEntity); (Create, RoomEntity)].
Proof. repeat split. Qed.



(** C5. With an outbox of three entries of which only the second, a
    grant, is refused by the server, [syncToServer] empties the outbox:
    the server accepted the first and the third request only, and the
    refused grant is no longer queued. *)
Theorem syncToServer_discards_refused_grant :
  SyncService.processChange Sample.server
    (PendingChange.mk "b" 2 Grant AccessEntity (GrantData 1 1 5)) []
  = (Resolved tt, [])
  /\ fst (SyncService.syncToServer Sample.env Sample.server true Sample.queued [])
     = true
  /\ snd (snd (SyncService.syncToServer Sample.env Sample.server true
                 Sample.queued []))
     = [CreateRoom; CreateEmployee]
  /\ getPendingChanges
       (SyncService.localDb
          (fst (snd (SyncService.syncToServer Sample.env Sample.server true
                       Sample.queued []))))
     = [].
Proof. repeat split. Qed.

(** C6. Employee 1 holds room 5; two calls of [grantAccess(1, 0)] both
    resolve to [true] and leave no AccessRight row for the pair (1, 0)
    and no 0 in [accessRooms]: the lookup of the pair reads the room id
    0 as no room id, finds the row of room 5 and takes the pair for
    granted. *)
Theorem grantAccess_zero_room_grants_nothing :
  let twice :=
    (grantAccess Sample.env 1 0 ;; grantAccess Sample.env 1 0)%async
      Sample.oneGrant in
  fst twice = Resolved true
  /\ rowsFor 1 0 (snd twice) = []
  /\ getEmployeeById 1 (snd twice) = Some (1, Sample.ivanov [5]).
Proof. repeat split. Qed.

(** The same two calls for room 5, which employee 1 does not hold yet. *)
Lemma grantAccess_twice_sample :
  exists b1 s1,
    grantAccess Sample.env 1 5 Sample.noGrant = (Resolved b1, s1)
    /\ grantAccess Sample.env 1 5 s1 = (Resolved true, s1)
    /\ length (rowsFor 1 5 s1) = 1%nat
    /\ exists emp1,
         Store.get 1 (employees s1) = Some emp1
         /\ count_occ Z.eq_dec (Employee.accessRooms emp1) 5 = 1%nat.
Proof.
  apply (grantAccess_twice Sample.env Sample.noGrant 1 5 (Sample.ivanov [])).
  - discriminate.
  - discriminate.
  - split; constructor.
  - discriminate.
  - intros k v [].
  - intros k v [H|[]]. injection H as <- <-. reflexivity.
  - reflexivity.
  - reflexivity.
Defined.

(** C7. The pair (1, 0) has no AccessRight row, and [revokeAccess(1, 0)]
    deletes the row of the pair (1, 5), rewrites the employee and
    records two pending changes: the lookup of the pair reads the room
    id 0 as no room id and returns every row of employee 1. *)
Theorem revokeAccess_zero_room_revokes_all :
  rowsFor 1 0 Sample.oneGrant = []
  /\ fst (revokeAccess Sample.env 1 0 Sample.oneGrant) = Resolved true
  /\ Store.records (accessRights Sample.oneGrant) = [(1, AccessRight.mk 1 5)]
  /\ Store.records
       (accessRights (snd (revokeAccess Sample.env 1 0 Sample.oneGrant))) = []
  /\ map PendingChange.tag
       (pendingChanges (snd (revokeAccess Sample.env 1 0 Sample.oneGrant)))
     = [(Update, EmployeeEntity); (Revoke, AccessEntity)].
Proof. repeat split. Qed.

(** Revoking room 7, which employee 1 does not hold, changes nothing. *)
Lemma revokeAccess_absent_pair_sample :
  revokeAccess Sample.env 1 7 Sample.oneGrant = (Resolved true, Sample.oneGrant).
Proof.
  apply (revokeAccess_absent_pair Sample.env Sample.oneGrant 1 7).
  - discriminate.
  - discriminate.
  - reflexivity.
Defined.

(** The scenario of the three fetches: the room list throws, the
    employee and access lists are imported into an empty database, the
    rooms store is untouched and [lastSyncTime] is updated. *)
Lemma syncFromServer_room_fetch_throws :
  let after :=
    fst (snd (SyncService.syncFromServer Sample.env Sample.roomlessServer true
                Sample.fresh [])) in
  fst (SyncService.syncFromServer Sample.env Sample.roomlessServer true
         Sample.fresh []) = Resolved true
  /\ rooms (SyncService.localDb after) = Store.empty
  /\ Store.records (employees (SyncService.localDb after)) = [(1, Sample.ivanov [5])]
  /\ Store.records (accessRights (SyncService.localDb after))
     = [(1, AccessRight.mk 1 5)]
  /\ SyncService.lastSyncTime after = 1002.
Proof. repeat split. Qed.

(** C9. The server answers the room list with room 5, which the local
    database already holds: [bulkImportRooms] rejects, no entity type is
    imported (the stores and the outbox are as before), and
    [lastSyncTime] is updated all the same. *)
Theorem syncFromServer_stamps_without_import :
  let before := Sample.synced in
  let after :=
    fst (snd (SyncService.syncFromServer Sample.env Sample.server true before [])) in
  fst (bulkImportRooms Sample.env [(Some 5, Sample.room101)]
         (SyncService.localDb before))
  = Rejected ConstraintError
  /\ fst (SyncService.syncFromServer Sample.env Sample.server true before [])
     = Resolved true
  /\ rooms (SyncService.localDb after) = rooms (SyncService.localDb before)
  /\ employees (SyncService.localDb after) = employees (SyncService.localDb before)
  /\ accessRights (SyncService.localDb after)
     = accessRights (SyncService.localDb before)
  /\ pendingChanges (SyncService.localDb after) = []
  /\ SyncService.lastSyncTime before = 0
  /\ SyncService.lastSyncTime after = 1000
  /\ SyncService.localStorage after = Some 1000.
Proof. repeat split. Qed.

End Scenarios.


(** * Further properties of the embedded code *)

(** ** The local service: rooms and employees *)

Section Entities.

Variable env : Environment.

Lemma getAccessRights_employee (e : Z) (s : State) :
  e <> 0 ->
  IndexedDBService.getAccessRights None (Some e) s
  = filter (fun a => AccessRight.employeeId (snd a) =? e)
           (Store.records (accessRights s)).
Proof.
  intros He. unfold IndexedDBService.getAccessRights.
  rewrite (truthy_nonzero e He). reflexivity.
Qed.

(** [createRoom] of a value without id when the rooms store cannot
    generate a key any more: the [ConstraintError] of [add] rejects the
    promise and nothing has changed. *)
Lemma createRoom_exhausted (s : State) (room : Room.fields) :
  Store.maxKey < Store.keyGenerator (rooms s) ->
  IndexedDBService.createRoom env (None, room) s = (Rejected ConstraintError, s).
Proof.
  intros Hfull. unfold IndexedDBService.createRoom. run.
  rewrite (add_exhausted _ _ _ Hfull). reflexivity.
Qed.

(** The rooms store after [createRoom] of a value without id, whether the
    recording of the change succeeds or not. *)
Lemma createRoom_rooms (s : State) (room : Room.fields) :
  keysOk (rooms s) ->
  Store.keyGenerator (rooms s) <= Store.maxKey ->
  rooms (snd (IndexedDBService.createRoom env (None, room) s))
  = Store.mk (Store.place (Store.keyGenerator (rooms s)) room (Store.records (rooms s)))
             (Store.keyGenerator (rooms s) + 1)
  /\ fst (IndexedDBService.createRoom env (None, room) s)
     = if IndexedDBService.hasPending (randomUUID env (draws s)) (pendingChanges s)
       then Rejected ConstraintError
       else Resolved (Store.keyGenerator (rooms s), room).
Proof.
  intros [_ Hbelow] Hmax. unfold IndexedDBService.createRoom. run.
  rewrite (add_generated _ _ _ Hbelow Hmax), rooms_never_clash.
  match goal with
  | |- context [IndexedDBService.addPendingChange env ?op ?ety ?d ?s0] =>
      destruct (addPendingChange_cases env op ety d s0) as [[E ->]|[E ->]]
  end; cbn [pendingChanges draws setRooms] in E; rewrite E; split; reflexivity.
Qed.

(** X1. While the key generator of the rooms store is at most 2^53,
    [createRoom] of a value without id stores the room under the
    current number of the generator, an id no stored room has: the room
    can be read back under that id and every other id reads as before.
    The promise resolves to the stored room unless the change id drawn
    for the outbox is taken; then it rejects, and the room is stored all
    the same.  Once the generator is above 2^53 no key can be generated:
    [createRoom] rejects and changes nothing. *)
Theorem createRoom_stores_room (s : State) (room : Room.fields) :
  keysOk (rooms s) ->
  let id := Store.keyGenerator (rooms s) in
  let after := snd (IndexedDBService.createRoom env (None, room) s) in
  (id <= Store.maxKey ->
   IndexedDBService.getRoomById id s = None
   /\ IndexedDBService.getRoomById id after = Some (id, room)
   /\ (forall k, k <> id ->
         IndexedDBService.getRoomById k after = IndexedDBService.getRoomById k s)
   /\ fst (IndexedDBService.createRoom env (None, room) s)
      = if IndexedDBService.hasPending (randomUUID env (draws s)) (pendingChanges s)
        then Rejected ConstraintError
        else Resolved (id, room))
  /\ (Store.maxKey < id ->
      IndexedDBService.createRoom env (None, room) s = (Rejected ConstraintError, s)).
Proof.
  intros Hkeys id after. split; [|apply createRoom_exhausted].
  intros Hmax.
  destruct (createRoom_rooms s room Hkeys Hmax) as [Hrooms Hres].
  destruct Hkeys as [_ Hbelow].
  assert (Hnone : Store.lookup id (Store.records (rooms s)) = None)
    by exact (lookup_none_below _ _ Hbelow Hmax).
  unfold IndexedDBService.getRoomById, Store.get. subst after.
  rewrite Hrooms. cbn [Store.records]. repeat split.
  - rewrite Hnone. reflexivity.
  - rewrite (lookup_place_same _ _ _ Hnone). reflexivity.
  - intros k Hk. rewrite lookup_place_other by exact Hk. reflexivity.
  - exact Hres.
Qed.

(** X2. [updateRoom] is an upsert: whether or not the id was stored, the
    room reads back as given afterwards and every other id reads as
    before; the answer is [true] unless the recording of the change
    rejects, in which case the room is written all the same. *)
Theorem updateRoom_upserts (s : State) (room : Room.t) :
  let after := snd (IndexedDBService.updateRoom env room s) in
  IndexedDBService.getRoomById (fst room) after = Some room
  /\ (forall k, k <> fst room ->
        IndexedDBService.getRoomById k after = IndexedDBService.getRoomById k s)
  /\ fst (IndexedDBService.updateRoom env room s)
     = Resolved (negb (IndexedDBService.hasPending (randomUUID env (draws s))
                         (pendingChanges s))).
Proof.
  destruct room as [k v]. cbn [fst].
  unfold IndexedDBService.updateRoom. run. unfold Store.put.
  rewrite rooms_never_clash.
  match goal with
  | |- context [IndexedDBService.addPendingChange env ?op ?ety ?d ?s0] =>
      destruct (addPendingChange_cases env op ety d s0) as [[E ->]|[E ->]]
  end; cbn [pendingChanges draws setRooms] in E; rewrite E; cbn [negb snd fst];
    unfold IndexedDBService.getRoomById, Store.get;
    cbn [rooms setPendingChanges setRooms tick Store.records];
    (split; [rewrite lookup_place_same by apply lookup_drop_same; reflexivity|]);
    (split; [|reflexivity]);
    intros k' Hk; rewrite lookup_place_other, lookup_drop_other by exact Hk;
    reflexivity.
Qed.

(** X3. [createEmployee] of a value whose [employeeId] a stored employee
    already carries rejects with the ConstraintError of the unique index
    and changes nothing: no employee is stored, no pending change is
    recorded and nothing is drawn from the environment. *)
Theorem createEmployee_rejects_used_employeeId
    (s : State) (employee other : Employee.fields) (k : Z) :
  keysOk (employees s) ->
  In (k, other) (Store.records (employees s)) ->
  Employee.employeeId other = Employee.employeeId employee ->
  IndexedDBService.createEmployee env (None, employee) s
  = (Rejected ConstraintError, s).
Proof.
  intros [_ Hbelow] Hin Hsame. unfold IndexedDBService.createEmployee. run.
  destruct (Z.ltb_spec Store.maxKey (Store.keyGenerator (employees s)))
    as [Hfull|Hmax].
  { rewrite (add_exhausted _ _ _ Hfull). reflexivity. }
  rewrite (add_generated _ _ _ Hbelow Hmax).
  assert (Hc : Store.clashes Employee.unique (Store.keyGenerator (employees s))
                 employee (Store.records (employees s)) = true).
  { apply existsb_exists. exists (k, other). split; [exact Hin|].
    cbn [fst snd]. unfold Employee.unique. rewrite Hsame, String.eqb_refl.
    rewrite Forall_forall in Hbelow. specialize (Hbelow _ Hin). cbn [fst] in Hbelow.
    destruct (Z.eqb_spec k (Store.keyGenerator (employees s))); [lia|reflexivity]. }
  rewrite Hc. reflexivity.
Qed.

(** What [deleteEmployee] does to the entity stores, for a non-zero id. *)
Lemma deleteEmployee_effect (s : State) (e : Z) :
  e <> 0 ->
  keysOk (accessRights s) ->
  let after := snd (IndexedDBService.deleteEmployee env e s) in
  rooms after = rooms s
  /\ employees after = Store.delete e (employees s)
  /\ Store.records (accessRights after)
     = filter (fun a => negb (AccessRight.employeeId (snd a) =? e))
              (Store.records (accessRights s))
  /\ fst (IndexedDBService.deleteEmployee env e s)
     = Resolved (negb (IndexedDBService.hasPending (randomUUID env (draws s))
                         (pendingChanges s))).
Proof.
  intros He [Hnd _]. unfold IndexedDBService.deleteEmployee. run.
  rewrite getAccessRights_employee by exact He.
  cbn [accessRights setEmployees].
  assert (Hacc :
    Store.records
      (fold_left (fun st a => Store.delete (fst a) st)
         (filter (fun a => AccessRight.employeeId (snd a) =? e)
                 (Store.records (accessRights s)))
         (accessRights s))
    = filter (fun a => negb (AccessRight.employeeId (snd a) =? e))
             (Store.records (accessRights s))).
  { rewrite fold_delete_records. apply delete_selected. exact Hnd. }
  match goal with
  | |- context [IndexedDBService.addPendingChange env ?op ?ety ?d ?s0] =>
      destruct (addPendingChange_cases env op ety d s0) as [[E ->]|[E ->]]
  end; cbn [pendingChanges draws setAccessRights setEmployees] in E; rewrite E;
    cbn [negb snd fst rooms employees accessRights setPendingChanges
         setAccessRights setEmployees tick];
    auto.
Qed.

(** X4. For a non-zero id and intact accessRights keys, [deleteEmployee]
    removes the employee of that id and no other employee, removes exactly
    the AccessRight rows of that employee and leaves the rooms alone; like
    [deleteRoom] it answers [true] also when no such employee is stored. *)
Theorem deleteEmployee_cascade (s : State) (e : Z) :
  e <> 0 ->
  keysOk (accessRights s) ->
  let after := snd (IndexedDBService.deleteEmployee env e s) in
  IndexedDBService.getEmployeeById e after = None
  /\ (forall k, k <> e ->
        IndexedDBService.getEmployeeById k after = IndexedDBService.getEmployeeById k s)
  /\ (forall a, In a (Store.records (accessRights after))
        <-> In a (Store.records (accessRights s)) /\ AccessRight.employeeId (snd a) <> e)
  /\ rooms after = rooms s
  /\ fst (IndexedDBService.deleteEmployee env e s)
     = Resolved (negb (IndexedDBService.hasPending (randomUUID env (draws s))
                         (pendingChanges s))).
Proof.
  intros He Hkeys after.
  destruct (deleteEmployee_effect s e He Hkeys) as (Hr & Hemp & Hacc & Hres).
  fold after in Hr, Hemp, Hacc.
  unfold IndexedDBService.getEmployeeById, Store.get. rewrite Hemp, Hacc.
  cbn [Store.delete Store.records].
  split; [|split; [|split; [|split; [exact Hr|exact Hres]]]].
  - rewrite lookup_drop_same. reflexivity.
  - intros k Hk. rewrite lookup_drop_other by exact Hk. reflexivity.
  - intros a. rewrite filter_In.
    destruct (Z.eqb_spec (AccessRight.employeeId (snd a)) e); cbn [negb];
      intuition congruence.
Qed.

(** X9. Unlike [deleteRoom], [deleteEmployee] of a non-zero id keeps
    [accessRooms] and the AccessRight rows in agreement: the employee goes
    together with the rows, and the rows of the others stay. *)
Theorem deleteEmployee_keeps_agreement (s : State) (e : Z) :
  e <> 0 ->
  keysOk (accessRights s) ->
  cacheAgrees s ->
  cacheAgrees (snd (IndexedDBService.deleteEmployee env e s)).
Proof.
  intros He Hkeys Hagree.
  destruct (deleteEmployee_effect s e He Hkeys) as (_ & Hemp & Hacc & _).
  intros id emp Hget x. apply getEmployeeById_get in Hget.
  rewrite Hemp in Hget. unfold Store.get in Hget. cbn [Store.delete Store.records] in Hget.
  assert (Hne : id <> e).
  { intros ->. rewrite lookup_drop_same in Hget. discriminate. }
  rewrite lookup_drop_other in Hget by exact Hne.
  rewrite (Hagree id emp (proj2 (getEmployeeById_get _ _ _) Hget) x).
  unfold grantedRooms. rewrite Hacc, !in_granted. split.
  - intros (k & Hin). exists k. apply filter_In. split; [exact Hin|].
    cbn. destruct (Z.eqb_spec id e); [contradiction|reflexivity].
  - intros (k & Hin). apply filter_In in Hin. exists k. tauto.
Qed.

Lemma filter_true {A} (l : list A) : filter (fun _ => true) l = l.
Proof. induction l as [|x tl IH]; cbn [filter]; [reflexivity|rewrite IH; reflexivity]. Qed.

Lemma filter_false {A} (l : list A) : filter (fun _ => false) l = [].
Proof. induction l as [|x tl IH]; cbn [filter]; [reflexivity|exact IH]. Qed.

(** X5. The id 0 reads as no id in the cascade too: [deleteRoom(0)] and
    [deleteEmployee(0)] delete every AccessRight row of the database. *)
Theorem delete_zero_id_wipes_accessRights (s : State) :
  keysOk (accessRights s) ->
  Store.records (accessRights (snd (IndexedDBService.deleteRoom env 0 s))) = []
  /\ Store.records (accessRights (snd (IndexedDBService.deleteEmployee env 0 s))) = [].
Proof.
  intros [Hnd _].
  assert (Hall :
    Store.records
      (fold_left (fun st a => Store.delete (fst a) st)
         (Store.records (accessRights s)) (accessRights s)) = []).
  { rewrite fold_delete_records.
    pose proof (delete_selected (fun _ => true) _ Hnd) as Hd.
    rewrite filter_true in Hd. rewrite Hd. cbn [negb]. apply filter_false. }
  split.
  - unfold IndexedDBService.deleteRoom. run.
    unfold IndexedDBService.getAccessRights. cbn [truthy Z.eqb Store.getAll].
    cbn [accessRights setRooms].
    match goal with
    | |- context [IndexedDBService.addPendingChange env ?op ?ety ?d ?s0] =>
        destruct (addPendingChange_cases env op ety d s0) as [[_ ->]|[_ ->]]
    end; exact Hall.
  - unfold IndexedDBService.deleteEmployee. run.
    unfold IndexedDBService.getAccessRights. cbn [truthy Z.eqb Store.getAll].
    cbn [accessRights setEmployees].
    match goal with
    | |- context [IndexedDBService.addPendingChange env ?op ?ety ?d ?s0] =>
        destruct (addPendingChange_cases env op ety d s0) as [[_ ->]|[_ ->]]
    end; exact Hall.
Qed.

Lemma deleteRoom_rooms (s : State) (k : Z) :
  rooms (snd (IndexedDBService.deleteRoom env k s)) = Store.delete k (rooms s).
Proof.
  unfold IndexedDBService.deleteRoom. run.
  match goal with
  | |- context [IndexedDBService.addPendingChange env ?op ?ety ?d ?s0] =>
      destruct (addPendingChange_cases env op ety d s0) as [[_ ->]|[_ ->]]
  end; reflexivity.
Qed.

(** X6. Ids are not reused: while the key generator of the rooms store
    is at most 2^53, after [deleteRoom] of a stored room the next
    [createRoom] gets a new id, above the deleted one, and the deleted
    id stays free. *)
Theorem createRoom_after_deleteRoom_new_id
    (s : State) (k : Z) (v room : Room.fields) :
  keysOk (rooms s) ->
  Store.keyGenerator (rooms s) <= Store.maxKey ->
  In (k, v) (Store.records (rooms s)) ->
  let s1 := snd (IndexedDBService.deleteRoom env k s) in
  let s2 := snd (IndexedDBService.createRoom env (None, room) s1) in
  IndexedDBService.getRoomById k s2 = None
  /\ IndexedDBService.getRoomById (Store.keyGenerator (rooms s)) s2
     = Some (Store.keyGenerator (rooms s), room)
  /\ k < Store.keyGenerator (rooms s).
Proof.
  intros Hkeys Hmax Hin s1 s2.
  assert (Hlt : k < Store.keyGenerator (rooms s)).
  { destruct Hkeys as [_ Hbelow]. rewrite Forall_forall in Hbelow.
    specialize (Hbelow _ Hin). cbn [fst] in Hbelow. lia. }
  assert (H1 : rooms s1 = Store.delete k (rooms s)) by apply deleteRoom_rooms.
  assert (Hkeys1 : keysOk (rooms s1)) by (rewrite H1; apply keysOk_delete, Hkeys).
  assert (Hmax1 : Store.keyGenerator (rooms s1) <= Store.maxKey)
    by (rewrite H1; exact Hmax).
  destruct (createRoom_rooms s1 room Hkeys1 Hmax1) as [H2 _]. fold s2 in H2.
  unfold IndexedDBService.getRoomById, Store.get.
  rewrite H2, H1. cbn [Store.delete Store.records Store.keyGenerator].
  repeat split; [| |exact Hlt].
  - rewrite lookup_place_other by lia. rewrite lookup_drop_same. reflexivity.
  - rewrite lookup_place_same; [reflexivity|].
    rewrite lookup_drop_other by lia.
    destruct Hkeys as [_ Hbelow].
    exact (lookup_none_below _ _ Hbelow Hmax).
Qed.

End Entities.

(** ** The local service: the access relation *)

Section Relation.

Variable env : Environment.

Lemma filter_filter_none {A} (p : A -> bool) (l : list A) :
  filter p (filter (fun x => negb (p x)) l) = [].
Proof.
  induction l as [|x tl IH]; cbn [filter]; [reflexivity|].
  destruct (p x) eqn:Hp; cbn [negb filter]; [exact IH|].
  rewrite Hp. exact IH.
Qed.

Lemma filter_filter_keep {A} (p q : A -> bool) (l : list A) :
  (forall x, q x = true -> p x = false) ->
  filter q (filter (fun x => negb (p x)) l) = filter q l.
Proof.
  intros Hpq. induction l as [|x tl IH]; cbn [filter]; [reflexivity|].
  destruct (p x) eqn:Hp; cbn [negb filter].
  - destruct (q x) eqn:Hq; [|exact IH].
    rewrite (Hpq x Hq) in Hp. discriminate.
  - rewrite IH. reflexivity.
Qed.

Lemma filter_all {A} (p : A -> bool) (l : list A) :
  (forall x, In x l -> p x = true) -> filter p l = l.
Proof.
  induction l as [|x tl IH]; cbn [filter]; intros H; [reflexivity|].
  rewrite (H x (or_introl eq_refl)). f_equal. apply IH.
  intros y Hy. apply H. right. exact Hy.
Qed.

(** X10. For non-zero ids on intact stores, [revokeAccess] leaves no
    AccessRight row for the pair and keeps the rows of every other pair;
    when the pair had a row and the employee is stored, the room is gone
    from the employee's [accessRooms] as well. *)
Theorem revokeAccess_removes_pair (s : State) (e r : Z) :
  e <> 0 -> r <> 0 ->
  keysOk (accessRights s) ->
  indexOk Employee.unique (employees s) ->
  let after := snd (IndexedDBService.revokeAccess env e r s) in
  rowsFor e r after = []
  /\ (forall e' r', e' <> e \/ r' <> r -> rowsFor e' r' after = rowsFor e' r' s)
  /\ (rowsFor e r s <> [] ->
      forall emp, IndexedDBService.getEmployeeById e after = Some (e, emp) ->
        ~ In r (Employee.accessRooms emp)).
Proof.
  intros He Hr Hkeys Hidx after.
  destruct (rowsFor e r s) as [|a rest] eqn:Hrows.
  { assert (Hsame : after = s).
    { subst after. unfold IndexedDBService.revokeAccess. run.
      rewrite (getAccessRights_pair _ _ s He Hr), Hrows. reflexivity. }
    rewrite Hsame. split; [exact Hrows|]. split; [reflexivity|].
    intros H. contradiction. }
  destruct (IndexedDBService.revokeAccess env e r s) as [res s'] eqn:Hrun.
  cbn [snd] in after. subst after.
  destruct (revokeAccess_effect env s e r res s' He Hr) as (_ & Hacc & Hemp);
    [rewrite Hrows; discriminate|exact Hkeys|exact Hrun|].
  unfold rowsFor. rewrite Hacc. split; [|split].
  - apply (filter_filter_none
             (fun a => (AccessRight.employeeId (snd a) =? e)
                       && (AccessRight.roomId (snd a) =? r))).
  - intros e' r' Hne.
    apply (filter_filter_keep
             (fun a => (AccessRight.employeeId (snd a) =? e)
                       && (AccessRight.roomId (snd a) =? r))).
    intros x Hx. apply andb_true_iff in Hx. destruct Hx as [H1 H2].
    apply Z.eqb_eq in H1, H2. rewrite H1, H2.
    destruct (Z.eqb_spec e' e), (Z.eqb_spec r' r); try reflexivity.
    destruct Hne; contradiction.
  - intros _ emp Hget. apply getEmployeeById_get in Hget. rewrite Hemp in Hget.
    destruct (Store.get e (employees s)) as [emp0|] eqn:Hge.
    + rewrite (put_keeps_index e emp0
                 (Employee.setAccessRooms
                    (filter (fun x => negb (x =? r)) (Employee.accessRooms emp0)) emp0)
                 _ Hidx Hge eq_refl) in Hget.
      unfold Store.get in Hget. cbn [Store.records] in Hget.
      rewrite lookup_place_same in Hget by apply lookup_drop_same.
      injection Hget as <-. cbn [Employee.setAccessRooms Employee.accessRooms].
      rewrite filter_In. rewrite Z.eqb_refl. cbn [negb]. intros [_ H]. discriminate.
    + congruence.
Qed.

(** X11. Granting a new pair to a stored employee and revoking it again
    brings the access relation back: the AccessRight rows, the employee
    record with its [accessRooms], the other employees and the rooms read
    as before the grant (the key generator and the outbox have moved on).
    In between the pair has a row, provided the key generator of the
    accessRights store is at most 2^53; above that the grant stores
    nothing and the revocation finds nothing to undo. *)
Theorem grantAccess_then_revokeAccess_restores
    (s : State) (e r : Z) (emp : Employee.fields) :
  e <> 0 -> r <> 0 ->
  intact s ->
  rowsFor e r s = [] ->
  Store.get e (employees s) = Some emp ->
  ~ In r (Employee.accessRooms emp) ->
  let s1 := snd (IndexedDBService.grantAccess env e r s) in
  let s2 := snd (IndexedDBService.revokeAccess env e r s1) in
  (Store.keyGenerator (accessRights s) <= Store.maxKey -> rowsFor e r s1 <> [])
  /\ Store.records (accessRights s2) = Store.records (accessRights s)
  /\ (forall k, IndexedDBService.getEmployeeById k s2
                = IndexedDBService.getEmployeeById k s)
  /\ rooms s2 = rooms s.
Proof.
  intros He Hr Hint Hrows Hget Hnotin s1 s2.
  destruct (Z.ltb_spec Store.maxKey (Store.keyGenerator (accessRights s)))
    as [Hfull|Hmax].
  { assert (Hs1 : s1 = s)
      by (subst s1; rewrite (grantAccess_exhausted env s e r He Hr Hrows Hfull);
          reflexivity).
    assert (Hs2 : s2 = s)
      by (subst s2; rewrite Hs1, (revokeAccess_absent_pair env s e r He Hr Hrows);
          reflexivity).
    rewrite Hs2. split; [intros Hmax; lia|auto]. }
  assert (Hint1 : intact s1) by exact (intact_grantAccess env e r s Hint).
  destruct Hint as (_ & _ & Hka & Hie & _).
  assert (Hinc : includes (Employee.accessRooms emp) r = false).
  { destruct (includes (Employee.accessRooms emp) r) eqn:Hi; [|reflexivity].
    apply includes_In in Hi. contradiction. }
  destruct (grantAccess_fresh env s e r emp He Hr Hrows Hka Hmax Hie Hget Hinc)
    as (b & s1' & Hrun & Hacc1 & Hemp1 & Hrooms1).
  assert (Hs1 : s1 = s1') by (subst s1; rewrite Hrun; reflexivity).
  rewrite <- Hs1 in Hacc1, Hemp1, Hrooms1. clear Hrun Hs1 s1' b.
  assert (Hrows1 : rowsFor e r s1 <> []).
  { intros Hnil. assert (Hlen : length (rowsFor e r s1) = 0%nat) by (rewrite Hnil; reflexivity).
    unfold rowsFor in Hlen, Hrows.
    rewrite Hacc1, (filter_place (V:=AccessRight.fields)), Hrows in Hlen.
    cbn [snd AccessRight.employeeId AccessRight.roomId] in Hlen.
    rewrite !Z.eqb_refl in Hlen. discriminate. }
  destruct Hint1 as (_ & _ & Hka1 & Hie1 & _).
  destruct (IndexedDBService.revokeAccess env e r s1) as [res s2'] eqn:Hrun2.
  cbn [snd] in s2. subst s2.
  destruct (revokeAccess_effect env s1 e r res s2' He Hr Hrows1 Hka1 Hrun2)
    as (Hrooms2 & Hacc2 & Hemp2).
  split; [intros _; exact Hrows1|]. split; [|split].
  - rewrite Hacc2, Hacc1.
    destruct (place_split (Store.keyGenerator (accessRights s)) (AccessRight.mk e r)
                (Store.records (accessRights s))) as (l1 & l2 & Hl & ->).
    rewrite Hl. rewrite !filter_app. cbn [filter snd AccessRight.employeeId AccessRight.roomId].
    rewrite !Z.eqb_refl. cbn [andb negb]. rewrite <- filter_app. apply filter_all.
    intros x Hx. unfold rowsFor in Hrows. rewrite Hl in Hrows.
    destruct ((AccessRight.employeeId (snd x) =? e)
              && (AccessRight.roomId (snd x) =? r)) eqn:Hp; [|reflexivity].
    assert (Hin : In x (filter (fun a => (AccessRight.employeeId (snd a) =? e)
                                         && (AccessRight.roomId (snd a) =? r))
                               (l1 ++ l2)))
      by (apply filter_In; auto).
    rewrite Hrows in Hin. destruct Hin.
  - assert (Hget1 : Store.get e (employees s1)
                    = Some (Employee.setAccessRooms (Employee.accessRooms emp ++ [r]) emp)).
    { unfold Store.get. rewrite Hemp1. apply lookup_place_same, lookup_drop_same. }
    rewrite Hget1 in Hemp2.
    rewrite (put_keeps_index e _
               (Employee.setAccessRooms
                  (filter (fun x => negb (x =? r))
                     (Employee.accessRooms
                        (Employee.setAccessRooms (Employee.accessRooms emp ++ [r]) emp)))
                  (Employee.setAccessRooms (Employee.accessRooms emp ++ [r]) emp))
               _ Hie1 Hget1 eq_refl) in Hemp2.
    assert (Hback : Employee.setAccessRooms
                      (filter (fun x => negb (x =? r))
                         (Employee.accessRooms
                            (Employee.setAccessRooms (Employee.accessRooms emp ++ [r]) emp)))
                      (Employee.setAccessRooms (Employee.accessRooms emp ++ [r]) emp)
                    = emp).
    { destruct emp as [ln fn mn eid rooms0]. unfold Employee.setAccessRooms.
      cbn [Employee.accessRooms Employee.lastName
           Employee.firstName Employee.middleName Employee.employeeId] in *.
      f_equal. rewrite filter_app. cbn [filter]. rewrite Z.eqb_refl. cbn [negb].
      rewrite app_nil_r. apply filter_all. intros x Hx.
      destruct (Z.eqb_spec x r) as [->|]; [contradiction|reflexivity]. }
    rewrite Hback in Hemp2.
    intros k. unfold IndexedDBService.getEmployeeById, Store.get.
    rewrite Hemp2. cbn [Store.records]. rewrite Hemp1.
    destruct (Z.eq_dec k e) as [->|Hne].
    + rewrite lookup_place_same by apply lookup_drop_same.
      unfold Store.get in Hget. rewrite Hget. reflexivity.
    + rewrite lookup_place_other, lookup_drop_other by exact Hne.
      rewrite lookup_place_other, lookup_drop_other by exact Hne. reflexivity.
  - rewrite Hrooms2. exact Hrooms1.
Qed.

(** X12. [grantAccess] checks neither the employee nor the room: for
    non-zero ids and an employee that is not stored it inserts the row of
    the pair all the same, under the current number of the key generator
    while that is at most 2^53, leaves the employees alone and answers
    [true] (or [false] when only the recording of the change fails).
    Once the generator is above 2^53 no key can be generated: the grant
    answers [false] and changes nothing. *)
Theorem grantAccess_unknown_employee (s : State) (e r : Z) :
  e <> 0 -> r <> 0 ->
  keysOk (accessRights s) ->
  rowsFor e r s = [] ->
  IndexedDBService.getEmployeeById e s = None ->
  let after := snd (IndexedDBService.grantAccess env e r s) in
  (Store.keyGenerator (accessRights s) <= Store.maxKey ->
   In (Store.keyGenerator (accessRights s), AccessRight.mk e r)
      (Store.records (accessRights after))
   /\ length (rowsFor e r after) = 1%nat
   /\ employees after = employees s
   /\ rooms after = rooms s
   /\ fst (IndexedDBService.grantAccess env e r s)
      = Resolved (negb (IndexedDBService.hasPending (randomUUID env (draws s))
                          (pendingChanges s))))
  /\ (Store.maxKey < Store.keyGenerator (accessRights s) ->
      IndexedDBService.grantAccess env e r s = (Resolved false, s)).
Proof.
  intros He Hr [_ Hbelow] Hrows Hnone after. subst after.
  split; [|apply grantAccess_exhausted; assumption].
  intros Hmax.
  unfold IndexedDBService.grantAccess. run.
  rewrite (getAccessRights_pair _ _ s He Hr), Hrows.
  rewrite (add_generated _ _ _ Hbelow Hmax).
  rewrite (no_row_no_clash _ _ _ _ Hrows).
  assert (Hnone' : forall st,
            IndexedDBService.getEmployeeById e (setAccessRights st s) = None)
    by (intros st; exact Hnone).
  rewrite Hnone'.
  match goal with
  | |- context [IndexedDBService.addPendingChange env ?op ?ety ?d ?s0] =>
      destruct (addPendingChange_cases env op ety d s0) as [[E ->]|[E ->]]
  end; cbn [pendingChanges draws setAccessRights] in E; rewrite E;
    cbn [negb snd fst rooms employees accessRights setPendingChanges
         setAccessRights tick Store.records];
    (split; [apply in_place; left; reflexivity|]);
    (split; [|auto]);
    unfold rowsFor; cbn [accessRights setPendingChanges setAccessRights tick
                         Store.records];
    unfold rowsFor in Hrows;
    rewrite (filter_place (V:=AccessRight.fields)), Hrows;
    cbn [snd AccessRight.employeeId AccessRight.roomId];
    rewrite !Z.eqb_refl; reflexivity.
Qed.

(** A row whose id is taken makes the whole batch fail. *)
Lemma addAll_taken_id {V} (unique : V -> V -> bool)
    (l : list (option Z * V)) (st : Store.t V) (k : Z) (v w : V) :
  In (Some k, v) l -> Store.get k st = Some w -> Store.addAll unique l st = None.
Proof.
  revert st. induction l as [|[key v0] tl IH]; intros st Hin Hget; [destruct Hin|].
  cbn [Store.addAll]. destruct Hin as [Heq|Hin].
  - injection Heq as -> ->. unfold Store.add, Store.keyFor.
    unfold Store.get in Hget. rewrite Hget. reflexivity.
  - destruct (Store.add unique key v0 st) as [[k0 st']|] eqn:Hadd; [|reflexivity].
    apply (IH st' Hin).
    destruct (add_some _ _ _ _ _ _ Hadd) as (_ & Hl & _ & ->).
    unfold Store.get in *. cbn [Store.records].
    rewrite lookup_place_other; [exact Hget|].
    intros ->. congruence.
Qed.

(** X13. A bulk import is all or nothing: when one row of the batch
    carries an id that is already stored, the import rejects and leaves
    the state as it was; the rows before it are not stored and no pending
    change is recorded. *)
Theorem bulkImport_taken_id_rejects {V} (name : StoreName V) (ety : EntityType)
    (d : Payload) (l : list (option Z * V)) (s : State) (k : Z) (v w : V) :
  In (Some k, v) l ->
  Store.get k (view name s) = Some w ->
  IndexedDBService.bulkImport env name ety d l s = (Rejected ConstraintError, s).
Proof.
  intros Hin Hget. unfold IndexedDBService.bulkImport.
  rewrite (addAll_taken_id _ l _ k v w Hin Hget). reflexivity.
Qed.

End Relation.

(** ** The states the service reaches *)

Section Reachable.

Variable env : Environment.

Lemma hasPending_false_notin (i : string) (l : list PendingChange.t) :
  IndexedDBService.hasPending i l = false -> ~ In i (map PendingChange.id l).
Proof.
  unfold IndexedDBService.hasPending. intros Hex Hin.
  apply in_map_iff in Hin. destruct Hin as (c & Hid & Hin).
  assert (Ht : existsb (fun c => String.eqb (PendingChange.id c) i) l = true).
  { apply existsb_exists. exists c. split; [exact Hin|]. apply String.eqb_eq. exact Hid. }
  congruence.
Qed.

Lemma outboxOk_addPendingChange op ety d :
  preserves outboxOk (IndexedDBService.addPendingChange env op ety d).
Proof.
  intros s H.
  destruct (addPendingChange_cases env op ety d s) as [[Hfree ->]|[_ ->]];
    [|exact H].
  unfold outboxOk in *. cbn [snd pendingChanges setPendingChanges].
  destruct (placePending_split (nextChange env op ety d s) (pendingChanges s))
    as (l1 & l2 & Hl & ->).
  apply hasPending_false_notin in Hfree. rewrite Hl in H, Hfree.
  rewrite map_app in *. cbn [map].
  apply (Permutation_NoDup (Permutation_middle _ _ _)).
  constructor; assumption.
Qed.

Lemma outboxOk_filter (p : PendingChange.t -> bool) (l : list PendingChange.t) :
  NoDup (map PendingChange.id l) -> NoDup (map PendingChange.id (filter p l)).
Proof.
  induction l as [|c tl IH]; cbn [filter map]; intros H; [exact H|].
  inversion H as [|? ? Hnotin Htl]; subst.
  destruct (p c); cbn [map]; [|auto]. constructor; [|auto].
  intros Hin. apply Hnotin. apply in_map_iff in Hin.
  destruct Hin as (x & Hx & Hin). apply filter_In in Hin.
  apply in_map_iff. exists x. tauto.
Qed.

Lemma outboxOk_bulkImportRooms l :
  preserves outboxOk (IndexedDBService.bulkImportRooms env l).
Proof.
  intros s H. unfold IndexedDBService.bulkImportRooms, IndexedDBService.bulkImport.
  destruct (Store.addAll _ _ _) as [st|]; [|exact H].
  pose proof (outboxOk_addPendingChange Bulk RoomEntity (RoomsData l)
                (update ROOMS st s) H) as H2.
  destruct (IndexedDBService.addPendingChange _ _ _ _ _) as [[u|e|] s2]; exact H2.
Qed.

Lemma outboxOk_bulkImportEmployees l :
  preserves outboxOk (IndexedDBService.bulkImportEmployees env l).
Proof.
  intros s H. unfold IndexedDBService.bulkImportEmployees, IndexedDBService.bulkImport.
  destruct (Store.addAll _ _ _) as [st|]; [|exact H].
  pose proof (outboxOk_addPendingChange Bulk EmployeeEntity (EmployeesData l)
                (update EMPLOYEES st s) H) as H2.
  destruct (IndexedDBService.addPendingChange _ _ _ _ _) as [[u|e|] s2]; exact H2.
Qed.

Lemma outboxOk_bulkImportAccessRights l :
  preserves outboxOk (IndexedDBService.bulkImportAccessRights env l).
Proof.
  intros s H.
  unfold IndexedDBService.bulkImportAccessRights, IndexedDBService.bulkImport.
  destruct (Store.addAll _ _ _) as [st|]; [|exact H].
  pose proof (outboxOk_addPendingChange Bulk AccessEntity (AccessRightsData l)
                (update ACCESS_RIGHTS st s) H) as H2.
  destruct (IndexedDBService.addPendingChange _ _ _ _ _) as [[u|e|] s2]; exact H2.
Qed.

Ltac frame :=
  let s := fresh "s" in
  let H := fresh "H" in
  intros s H;
  unfold IndexedDBService.transactionAdd, IndexedDBService.transactionPut,
    IndexedDBService.transactionDelete, IndexedDBService.deleteEach;
  repeat match goal with
         | |- context [match ?x with _ => _ end] => destruct x
         end;
  exact H.

Lemma outboxOk_add_room room :
  preserves outboxOk (IndexedDBService.transactionAdd ROOMS room).
Proof. frame. Qed.

Lemma outboxOk_add_employee employee :
  preserves outboxOk (IndexedDBService.transactionAdd EMPLOYEES employee).
Proof. frame. Qed.

Lemma outboxOk_add_access access :
  preserves outboxOk (IndexedDBService.transactionAdd ACCESS_RIGHTS access).
Proof. frame. Qed.

Lemma outboxOk_put_room room :
  preserves outboxOk (IndexedDBService.transactionPut ROOMS room).
Proof. frame. Qed.

Lemma outboxOk_put_employee employee :
  preserves outboxOk (IndexedDBService.transactionPut EMPLOYEES employee).
Proof. frame. Qed.

Lemma outboxOk_delete_room k :
  preserves outboxOk (IndexedDBService.transactionDelete ROOMS k).
Proof. frame. Qed.

Lemma outboxOk_delete_employee k :
  preserves outboxOk (IndexedDBService.transactionDelete EMPLOYEES k).
Proof. frame. Qed.

Lemma outboxOk_deleteEach l : preserves outboxOk (IndexedDBService.deleteEach l).
Proof. frame. Qed.

Create HintDb outbox.

Hint Resolve preserves_ret preserves_query preserves_tryCatch
  outboxOk_addPendingChange outboxOk_add_room outboxOk_add_employee
  outboxOk_add_access outboxOk_put_room outboxOk_put_employee
  outboxOk_delete_room outboxOk_delete_employee outboxOk_deleteEach : outbox.

Ltac keeps :=
  repeat first
    [ apply preserves_bind; [|intros ?]
    | match goal with
      | |- preserves _ (match ?x with _ => _ end) => destruct x
      end
    | solve [auto with outbox] ].

Lemma outboxOk_updateEmployee employee :
  preserves outboxOk (IndexedDBService.updateEmployee env employee).
Proof. unfold IndexedDBService.updateEmployee. apply preserves_tryCatch; keeps. Qed.

Hint Resolve outboxOk_updateEmployee : outbox.

Lemma outboxOk_perform (m : Mutation) (s : State) :
  outboxOk s -> outboxOk (snd (perform env m s)).
Proof.
  destruct m; cbn [perform]; unfold resolved, resolvedTrue; cbn [snd].
  all: revert s.
  all: match goal with
       | |- forall s, outboxOk s -> outboxOk (snd (?m s)) =>
           change (preserves outboxOk m)
       end.
  all: try apply outboxOk_bulkImportRooms.
  all: try apply outboxOk_bulkImportEmployees.
  all: try apply outboxOk_bulkImportAccessRights.
  all: unfold IndexedDBService.createRoom, IndexedDBService.updateRoom,
         IndexedDBService.deleteRoom, IndexedDBService.createEmployee,
         IndexedDBService.deleteEmployee.
  all: try (apply preserves_tryCatch); keeps.
Qed.

Lemma outboxOk_call (c : ServiceCall) (s : State) :
  outboxOk s -> outboxOk (call env c s).
Proof.
  destruct c as [m|e r|e r|i|]; cbn [call].
  - apply outboxOk_perform.
  - revert s. change (preserves outboxOk (IndexedDBService.grantAccess env e r)).
    unfold IndexedDBService.grantAccess. apply preserves_tryCatch; keeps.
  - revert s. change (preserves outboxOk (IndexedDBService.revokeAccess env e r)).
    unfold IndexedDBService.revokeAccess. apply preserves_tryCatch; keeps.
  - intros H. apply outboxOk_filter. exact H.
  - intros _. constructor.
Qed.

Lemma intact_call (c : ServiceCall) (s : State) :
  intact s -> intact (call env c s).
Proof.
  destruct c as [m|e r|e r|i|]; cbn [call].
  - apply intact_perform.
  - apply intact_grantAccess.
  - apply intact_revokeAccess.
  - intros H. exact H.
  - intros H. exact H.
Qed.

Lemma callAll_keeps (I : State -> Prop) (cs : list ServiceCall) (s : State) :
  (forall c s, I s -> I (call env c s)) -> I s -> I (callAll env cs s).
Proof.
  intros Hstep. unfold callAll. revert s.
  induction cs as [|c tl IH]; cbn [fold_left]; intros s H; [exact H|].
  apply IH, Hstep, H.
Qed.

Lemma intact_emptyDatabase : intact emptyDatabase.
Proof.
  unfold intact. cbn. repeat split; try constructor; intros k v [].
Qed.

(** X14. Whatever sequence of calls the service takes from the database
    that [connect] creates (create, update, delete, bulk import, grant,
    revoke, deleting one or all pending changes), and however each call
    settles, the stores stay well formed: ids are distinct and, counted
    as 2^53 at most, below the key generator, no two employees share an
    [employeeId], no two AccessRight rows share a pair, and pending
    changes have distinct ids. *)
Theorem reachable_states_wellformed (cs : list ServiceCall) :
  intact (callAll env cs emptyDatabase) /\ outboxOk (callAll env cs emptyDatabase).
Proof.
  split.
  - apply callAll_keeps; [exact intact_call|exact intact_emptyDatabase].
  - apply callAll_keeps; [exact outboxOk_call|constructor].
Qed.

(** X15. In every state the service reaches from the empty database, a
    query for the access rights of a pair of non-zero ids returns at most
    one row, and two stored employees with the same [employeeId] are the
    same record. *)
Theorem reachable_rows_unique (cs : list ServiceCall) (e r : Z) :
  e <> 0 -> r <> 0 ->
  let s := callAll env cs emptyDatabase in
  (length (IndexedDBService.getAccessRights (Some r) (Some e) s) <= 1)%nat
  /\ (forall k1 k2 e1 e2,
        IndexedDBService.getEmployeeById k1 s = Some (k1, e1) ->
        IndexedDBService.getEmployeeById k2 s = Some (k2, e2) ->
        Employee.employeeId e1 = Employee.employeeId e2 -> k1 = k2 /\ e1 = e2).
Proof.
  intros He Hr s.
  assert (Hint : intact s)
    by (apply callAll_keeps; [exact intact_call|exact intact_emptyDatabase]).
  destruct Hint as (_ & Hke & Hka & Hie & Hia). split.
  - rewrite (getAccessRights_pair _ _ s He Hr).
    apply unique_access_one_row; assumption.
  - intros k1 k2 e1 e2 H1 H2 Heq.
    apply getEmployeeById_get in H1, H2.
    assert (Hk : k1 = k2).
    { destruct (Z.eq_dec k1 k2) as [|Hne]; [assumption|exfalso].
      unfold Store.get in H1, H2.
      apply lookup_in in H1, H2.
      specialize (Hie k1 e1 H1). unfold Store.clashes in Hie.
      assert (Hex : existsb (fun kv => negb (fst kv =? k1)
                                       && Employee.unique e1 (snd kv))
                      (Store.records (employees s)) = true).
      { apply existsb_exists. exists (k2, e2). split; [exact H2|].
        cbn [fst snd]. apply andb_true_iff. split.
        - destruct (Z.eqb_spec k2 k1); [congruence|reflexivity].
        - unfold Employee.unique. apply String.eqb_eq. exact Heq. }
      congruence. }
    split; [exact Hk|]. subst k2. congruence.
Qed.

End Reachable.

(** ** Replication: the outbox and the two directions of a sync *)

Section Replication.

Variable env : Environment.
Context {Remote : Type}.
Variable server : Server Remote.

Lemma filter_out_place (i : string) (c : PendingChange.t) (l : list PendingChange.t) :
  PendingChange.id c = i ->
  IndexedDBService.hasPending i l = false ->
  filter (fun d => negb (String.eqb (PendingChange.id d) i))
         (IndexedDBService.placePending c l) = l.
Proof.
  intros Hid Hfree.
  destruct (placePending_split c l) as (l1 & l2 & Hl & ->).
  rewrite filter_app. cbn [filter]. rewrite Hid, String.eqb_refl. cbn [negb].
  rewrite <- filter_app, <- Hl. apply filter_all. intros d Hd.
  destruct (String.eqb (PendingChange.id d) i) eqn:Heq; [|reflexivity].
  exfalso. unfold IndexedDBService.hasPending in Hfree.
  assert (Ht : existsb (fun c0 => String.eqb (PendingChange.id c0) i) l = true)
    by (apply existsb_exists; exists d; auto).
  congruence.
Qed.

(** X16. Recording a change and then deleting the pending change with the
    id it was given leaves the outbox as it was before the recording, for
    an id that was free; the entity stores are not touched either way. *)
Theorem addPendingChange_then_deletePendingChange
    (op : Operation) (ety : EntityType) (d : Payload) (s : State) :
  IndexedDBService.hasPending (randomUUID env (draws s)) (pendingChanges s) = false ->
  let recorded := IndexedDBService.addPendingChange env op ety d s in
  let after :=
    snd (IndexedDBService.deletePendingChange (randomUUID env (draws s)) (snd recorded)) in
  fst recorded = Resolved tt
  /\ In (nextChange env op ety d s) (pendingChanges (snd recorded))
  /\ pendingChanges after = pendingChanges s
  /\ rooms after = rooms s /\ employees after = employees s
  /\ accessRights after = accessRights s.
Proof.
  intros Hfree recorded after. subst after recorded.
  destruct (addPendingChange_cases env op ety d s) as [[_ ->]|[Hused _]];
    [|congruence].
  cbn [fst snd IndexedDBService.deletePendingChange pendingChanges
       setPendingChanges tick rooms employees accessRights].
  split; [reflexivity|]. split.
  - destruct (placePending_split (nextChange env op ety d s) (pendingChanges s))
      as (l1 & l2 & _ & ->).
    apply in_or_app. right. left. reflexivity.
  - split; [|auto]. apply filter_out_place; [reflexivity|exact Hfree].
Qed.

Lemma insertByTimestamp_In (x c : PendingChange.t) (l : list PendingChange.t) :
  In x (SyncService.insertByTimestamp c l) <-> x = c \/ In x l.
Proof.
  induction l as [|d tl IH]; cbn [SyncService.insertByTimestamp In].
  - intuition congruence.
  - destruct (PendingChange.timestamp c <=? PendingChange.timestamp d);
      cbn [In]; [intuition congruence|]. rewrite IH. intuition congruence.
Qed.

Lemma sortByTimestamp_In (x : PendingChange.t) (l : list PendingChange.t) :
  In x (SyncService.sortByTimestamp l) <-> In x l.
Proof.
  unfold SyncService.sortByTimestamp.
  induction l as [|d tl IH]; cbn [fold_right In]; [tauto|].
  rewrite insertByTimestamp_In, IH. intuition congruence.
Qed.

(** The loop of [syncToServer] touches the outbox only. *)
Lemma replay_frame (todo : list PendingChange.t) (db : State) (remote : Remote) :
  let db' := fst (fold_left (SyncService.replay server) todo (db, remote)) in
  rooms db' = rooms db /\ employees db' = employees db
  /\ accessRights db' = accessRights db /\ draws db' = draws db.
Proof.
  revert db remote. induction todo as [|c tl IH]; intros db remote;
    cbn [fold_left]; [cbn; auto|].
  destruct (SyncService.replay server (db, remote) c) as [db1 remote1] eqn:Hstep.
  specialize (IH db1 remote1). cbv zeta in IH |- *.
  unfold SyncService.replay in Hstep.
  destruct (SyncService.processChange server c remote) as [[u|e|] remote'];
    injection Hstep as <- <-; exact IH.
Qed.

(** A change that is still pending after the loop was pending before, and
    if it was one of the changes to replay, its request did not go
    through. *)
Lemma replay_remaining (todo : list PendingChange.t) (db : State) (remote : Remote)
    (c : PendingChange.t) :
  In c (pendingChanges (fst (fold_left (SyncService.replay server) todo (db, remote)))) ->
  In c (pendingChanges db)
  /\ (In c todo ->
      exists r, fst (SyncService.processChange server c r) <> Resolved tt).
Proof.
  revert db remote. induction todo as [|d tl IH]; intros db remote;
    cbn [fold_left]; [cbn; tauto|].
  destruct (SyncService.replay server (db, remote) d) as [db1 remote1] eqn:Hstep.
  intros Hin. destruct (IH db1 remote1 Hin) as [Hin1 Htl]. clear IH Hin.
  unfold SyncService.replay in Hstep.
  destruct (SyncService.processChange server d remote) as [[u|e|] remote'] eqn:Hp;
    injection Hstep as <- <-.
  - cbn [snd IndexedDBService.deletePendingChange pendingChanges setPendingChanges]
      in Hin1.
    apply filter_In in Hin1. destruct Hin1 as [Hin1 Hne]. split; [exact Hin1|].
    intros [->|Hin]; [|auto].
    rewrite String.eqb_refl in Hne. discriminate.
  - split; [exact Hin1|]. intros [->|Hin]; [|auto].
    exists remote. rewrite Hp. discriminate.
  - split; [exact Hin1|]. intros [->|Hin]; [|auto].
    exists remote. rewrite Hp. discriminate.
Qed.

(** X19. Whether online or not, and whatever the server answers,
    [syncToServer] leaves the rooms, the employees and the access rights
    of the local database as they are, and adds no pending change. *)
Theorem syncToServer_keeps_entities (onLine : bool) (svc : SyncService.t)
    (remote : Remote) :
  let db := SyncService.localDb svc in
  let db' :=
    SyncService.localDb (fst (snd (SyncService.syncToServer env server onLine svc remote))) in
  rooms db' = rooms db /\ employees db' = employees db
  /\ accessRights db' = accessRights db
  /\ incl (pendingChanges db') (pendingChanges db).
Proof.
  intros db db'. subst db db'. unfold SyncService.syncToServer.
  destruct (negb onLine || SyncService.isSyncing svc);
    [cbn; auto using incl_refl|].
  unfold IndexedDBService.getPendingChanges.
  destruct (pendingChanges (SyncService.localDb svc)) as [|c0 tl] eqn:Hout;
    [cbn; rewrite Hout; auto using incl_refl|].
  destruct (fold_left _ _ _) as [db remote'] eqn:Hfold.
  cbn [fst snd SyncService.localDb SyncService.setIsSyncing SyncService.stamp
       SyncService.setLocalDb tick rooms employees accessRights pendingChanges].
  pose proof (replay_frame (SyncService.sortByTimestamp (c0 :: tl))
                (SyncService.localDb svc) remote) as Hframe.
  cbv zeta in Hframe. rewrite Hfold in Hframe. cbn [fst] in Hframe.
  destruct Hframe as (Hr & He & Ha & _). repeat (split; [assumption|]).
  intros c Hin. rewrite <- Hout.
  apply (replay_remaining (SyncService.sortByTimestamp (c0 :: tl))
           (SyncService.localDb svc) remote c).
  rewrite Hfold. exact Hin.
Qed.

(** X18. After [syncToServer] has run (online, no sync in progress), every
    change that is still pending is a [create] of a room or of an
    employee: updates, deletions, grants, revocations and bulk imports
    leave the outbox whether or not the server took them. *)
Theorem syncToServer_leaves_only_creates (svc : SyncService.t) (remote : Remote) :
  SyncService.isSyncing svc = false ->
  Forall (fun c => PendingChange.operation c = Create
                   /\ PendingChange.entityType c <> AccessEntity)
    (pendingChanges
       (SyncService.localDb
          (fst (snd (SyncService.syncToServer env server true svc remote))))).
Proof.
  intros Hidle. unfold SyncService.syncToServer. rewrite Hidle. cbn [negb orb].
  unfold IndexedDBService.getPendingChanges.
  destruct (pendingChanges (SyncService.localDb svc)) as [|c0 tl] eqn:Hout;
    [cbn; rewrite Hout; constructor|].
  destruct (fold_left _ _ _) as [db remote'] eqn:Hfold.
  cbn [fst snd SyncService.localDb SyncService.setIsSyncing SyncService.stamp
       SyncService.setLocalDb tick pendingChanges].
  apply Forall_forall. intros c Hin.
  destruct (replay_remaining (SyncService.sortByTimestamp (c0 :: tl))
              (SyncService.localDb svc) remote c) as [Hbefore Hrefused];
    [rewrite Hfold; exact Hin|].
  destruct Hrefused as [r Hr].
  { apply sortByTimestamp_In. rewrite <- Hout. exact Hbefore. }
  destruct (PendingChange.operation c) eqn:Hop;
    try (exfalso; apply Hr; apply processChange_catches; rewrite Hop; discriminate).
  split; [reflexivity|]. intros Hety. apply Hr.
  unfold SyncService.processChange. rewrite Hop, Hety. reflexivity.
Qed.

Lemma processChange_accepted (c : PendingChange.t) (remote : Remote) :
  (forall m d r, fst (apiRequest server m d r) = true) ->
  fst (SyncService.processChange server c remote) = Resolved tt.
Proof.
  intros Hok.
  destruct (PendingChange.operation c) eqn:Hop;
    try (apply processChange_catches; rewrite Hop; discriminate).
  unfold SyncService.processChange. rewrite Hop.
  destruct (PendingChange.entityType c); try reflexivity;
    unfold ServerApiService.createRoom, ServerApiService.createEmployee,
      ServerApiService.request;
    match goal with
    | |- context [apiRequest server ?m ?d ?r] =>
        specialize (Hok m d r); destruct (apiRequest server m d r) as [[|] ?]
    end; cbn in Hok |- *; congruence.
Qed.

(** X17. When the server takes every request, [syncToServer] (online, no
    sync in progress) answers [true] and leaves the outbox empty. *)
Theorem syncToServer_accepting_server_empties_outbox
    (svc : SyncService.t) (remote : Remote) :
  (forall m d r, fst (apiRequest server m d r) = true) ->
  SyncService.isSyncing svc = false ->
  let result := SyncService.syncToServer env server true svc remote in
  fst result = true
  /\ pendingChanges (SyncService.localDb (fst (snd result))) = []
  /\ SyncService.isSyncing (fst (snd result)) = false.
Proof.
  intros Hok Hidle result. subst result.
  unfold SyncService.syncToServer. rewrite Hidle. cbn [negb orb].
  unfold IndexedDBService.getPendingChanges.
  destruct (pendingChanges (SyncService.localDb svc)) as [|c0 tl] eqn:Hout;
    [cbn; rewrite Hout; auto|].
  destruct (fold_left _ _ _) as [db remote'] eqn:Hfold.
  cbn [fst snd SyncService.localDb SyncService.setIsSyncing SyncService.stamp
       SyncService.setLocalDb SyncService.isSyncing tick pendingChanges].
  split; [reflexivity|]. split; [|reflexivity].
  destruct (pendingChanges db) as [|c rest] eqn:Hleft; [reflexivity|exfalso].
  destruct (replay_remaining (SyncService.sortByTimestamp (c0 :: tl))
              (SyncService.localDb svc) remote c) as [Hbefore Hrefused];
    [rewrite Hfold; cbn [fst]; rewrite Hleft; left; reflexivity|].
  destruct Hrefused as [r Hr].
  { apply sortByTimestamp_In. rewrite <- Hout. exact Hbefore. }
  apply Hr. apply processChange_accepted. exact Hok.
Qed.

End Replication.

(** ** Replication: what a download can do to the local database *)

Section Download.

Variable env : Environment.
Context {Remote : Type}.
Variable server : Server Remote.

Lemma add_keeps {V} (unique : V -> V -> bool) (key : option Z) (v : V)
    (st st' : Store.t V) (k' : Z) :
  Store.add unique key v st = Some (k', st') ->
  (forall k, Store.get k st <> None -> Store.get k st' = Store.get k st)
  /\ incl (Store.records st) (Store.records st').
Proof.
  intros Hadd. destruct (add_some _ _ _ _ _ _ Hadd) as (_ & Hfree & _ & ->).
  unfold Store.get. cbn [Store.records]. split.
  - intros k Hk. apply lookup_place_other. intros ->. contradiction.
  - intros x Hx. apply in_place. right. exact Hx.
Qed.

Lemma addAll_keeps {V} (unique : V -> V -> bool) (l : list (option Z * V))
    (st st' : Store.t V) :
  Store.addAll unique l st = Some st' ->
  (forall k, Store.get k st <> None -> Store.get k st' = Store.get k st)
  /\ incl (Store.records st) (Store.records st').
Proof.
  revert st. induction l as [|[key v] tl IH]; cbn [Store.addAll]; intros st H.
  - injection H as <-. split; [reflexivity|apply incl_refl].
  - destruct (Store.add unique key v st) as [[k1 st1]|] eqn:Hadd; [|discriminate].
    destruct (add_keeps _ _ _ _ _ _ Hadd) as [Hget1 Hincl1].
    destruct (IH st1 H) as [Hget Hincl]. split.
    + intros k Hk. rewrite Hget by (rewrite Hget1; assumption). auto.
    + eapply incl_tran; eassumption.
Qed.

Lemma grows_parts (s s' : State) :
  (forall k, Store.get k (rooms s) <> None ->
     Store.get k (rooms s') = Store.get k (rooms s)) ->
  (forall k, Store.get k (employees s) <> None ->
     Store.get k (employees s') = Store.get k (employees s)) ->
  incl (Store.records (accessRights s)) (Store.records (accessRights s')) ->
  incl (pendingChanges s) (pendingChanges s') ->
  grows s s'.
Proof.
  intros Hr He Ha Hp. unfold grows. split; [|split; [|split]].
  - intros k Hk. unfold IndexedDBService.getRoomById in *.
    rewrite Hr; [reflexivity|]. intros Hnone. rewrite Hnone in Hk. apply Hk. reflexivity.
  - intros k Hk. unfold IndexedDBService.getEmployeeById in *.
    rewrite He; [reflexivity|]. intros Hnone. rewrite Hnone in Hk. apply Hk. reflexivity.
  - exact Ha.
  - exact Hp.
Qed.

Lemma grows_refl (s : State) : grows s s.
Proof. apply grows_parts; auto using incl_refl. Qed.

Lemma grows_trans (s1 s2 s3 : State) : grows s1 s2 -> grows s2 s3 -> grows s1 s3.
Proof.
  intros (Hr & He & Ha & Hp) (Hr' & He' & Ha' & Hp'). unfold grows.
  split; [|split; [|split]].
  - intros k Hk. rewrite Hr' by (rewrite Hr; assumption). auto.
  - intros k Hk. rewrite He' by (rewrite He; assumption). auto.
  - eapply incl_tran; eassumption.
  - eapply incl_tran; eassumption.
Qed.

Lemma grows_addPendingChange op ety d (s : State) :
  grows s (snd (IndexedDBService.addPendingChange env op ety d s)).
Proof.
  destruct (addPendingChange_cases env op ety d s) as [[_ ->]|[_ ->]];
    cbn [snd]; apply grows_parts;
    cbn [rooms employees accessRights pendingChanges setPendingChanges tick];
    auto using incl_refl.
  intros c Hc.
  destruct (placePending_split (nextChange env op ety d s) (pendingChanges s))
    as (l1 & l2 & Hl & ->).
  rewrite Hl in Hc. apply in_app_or in Hc. apply in_or_app.
  destruct Hc; [left|right; right]; assumption.
Qed.

Lemma grows_preserves {A} (m : Async A) (s0 : State) :
  (forall s, grows s (snd (m s))) -> preserves (grows s0) m.
Proof. intros H s Hs. eapply grows_trans; [exact Hs|apply H]. Qed.

Lemma grows_bulkImportRooms l (s : State) :
  grows s (snd (IndexedDBService.bulkImportRooms env l s)).
Proof.
  unfold IndexedDBService.bulkImportRooms, IndexedDBService.bulkImport.
  destruct (Store.addAll _ _ _) as [st|] eqn:Hall; [|apply grows_refl].
  destruct (addAll_keeps _ _ _ _ Hall) as [Hget Hincl].
  pose proof (grows_addPendingChange Bulk RoomEntity (RoomsData l)
                (update ROOMS st s)) as H.
  destruct (IndexedDBService.addPendingChange _ _ _ _ _) as [[u|e|] s2];
    cbn [snd] in *; (eapply grows_trans; [|exact H]);
    apply grows_parts; auto using incl_refl.
Qed.

Lemma grows_bulkImportEmployees l (s : State) :
  grows s (snd (IndexedDBService.bulkImportEmployees env l s)).
Proof.
  unfold IndexedDBService.bulkImportEmployees, IndexedDBService.bulkImport.
  destruct (Store.addAll _ _ _) as [st|] eqn:Hall; [|apply grows_refl].
  destruct (addAll_keeps _ _ _ _ Hall) as [Hget Hincl].
  pose proof (grows_addPendingChange Bulk EmployeeEntity (EmployeesData l)
                (update EMPLOYEES st s)) as H.
  destruct (IndexedDBService.addPendingChange _ _ _ _ _) as [[u|e|] s2];
    cbn [snd] in *; (eapply grows_trans; [|exact H]);
    apply grows_parts; auto using incl_refl.
Qed.

Lemma grows_bulkImportAccessRights l (s : State) :
  grows s (snd (IndexedDBService.bulkImportAccessRights env l s)).
Proof.
  unfold IndexedDBService.bulkImportAccessRights, IndexedDBService.bulkImport.
  destruct (Store.addAll _ _ _) as [st|] eqn:Hall; [|apply grows_refl].
  destruct (addAll_keeps _ _ _ _ Hall) as [Hget Hincl].
  pose proof (grows_addPendingChange Bulk AccessEntity (AccessRightsData l)
                (update ACCESS_RIGHTS st s)) as H.
  destruct (IndexedDBService.addPendingChange _ _ _ _ _) as [[u|e|] s2];
    cbn [snd] in *; (eapply grows_trans; [|exact H]);
    apply grows_parts; auto using incl_refl.
Qed.

Lemma grows_importRows {A} (bulk : list A -> Async Z) (rows : list A) (s0 : State) :
  (forall l s, grows s (snd (bulk l s))) ->
  preserves (grows s0) (SyncService.importRows bulk rows).
Proof.
  intros H. unfold SyncService.importRows. destruct rows as [|x tl].
  - apply preserves_ret.
  - apply preserves_tryCatch; [|apply preserves_ret].
    apply preserves_bind; [|intros ?; apply preserves_ret].
    apply grows_preserves. apply H.
Qed.

(** X20. Whatever the server sends, [syncFromServer] only adds to the
    local database: every room and employee that was stored reads the
    same afterwards, and every access right and pending change is still
    there.  A record that the server has changed or deleted is therefore
    not changed or deleted locally. *)
Theorem syncFromServer_keeps_local_records (onLine : bool) (svc : SyncService.t)
    (remote : Remote) :
  grows (SyncService.localDb svc)
        (SyncService.localDb
           (fst (snd (SyncService.syncFromServer env server onLine svc remote)))).
Proof.
  unfold SyncService.syncFromServer.
  destruct (negb onLine || SyncService.isSyncing svc); [apply grows_refl|].
  destruct (fetchRooms server remote) as [roomsResponse remote1].
  destruct (fetchEmployees server remote1) as [employeesResponse remote2].
  destruct (fetchAccessRights server remote2) as [accessRightsResponse remote3].
  cbv zeta.
  match goal with
  | |- context [match ?m (SyncService.localDb svc) with _ => _ end] =>
      assert (H : preserves (grows (SyncService.localDb svc)) m)
  end.
  { apply preserves_bind; [|intros ?; apply preserves_bind; [|intros ?]];
      apply grows_importRows;
      [apply grows_bulkImportRooms|apply grows_bulkImportEmployees
      |apply grows_bulkImportAccessRights]. }
  specialize (H (SyncService.localDb svc) (grows_refl _)).
  match goal with
  | H : grows _ (snd ?x) |- _ => destruct x as [[u|e|] db]
  end; cbn [snd] in H;
    cbn [fst snd SyncService.localDb SyncService.setIsSyncing SyncService.setLocalDb];
    try exact H.
  destruct (_ && _);
    cbn [SyncService.localDb SyncService.setLocalDb SyncService.stamp]; exact H.
Qed.

(** X21. [fullSync], online and with no sync in progress, never answers
    [false]: it answers [true] whatever the server did with the replayed
    changes and whatever the three fetches returned, or it does not
    settle (when a bulk import of the download does not). *)
Theorem fullSync_never_reports_failure (onLineFrom : bool) (svc : SyncService.t)
    (remote : Remote) :
  SyncService.isSyncing svc = false ->
  let result := fst (SyncService.fullSync env server true true onLineFrom svc remote) in
  result = Resolved true \/ result = Unsettled.
Proof.
  intros Hidle result. subst result.
  unfold SyncService.fullSync, SyncService.syncToServer. rewrite Hidle.
  cbn [negb orb]. unfold IndexedDBService.getPendingChanges.
  destruct (pendingChanges (SyncService.localDb svc)) as [|c0 tl].
  - destruct (SyncService.syncFromServer _ _ _ _ _) as [[b|e|] st]; cbn; auto.
  - destruct (fold_left _ _ _) as [db remote'].
    destruct (SyncService.syncFromServer _ _ _ _ _) as [[b|e|] st]; cbn; auto.
Qed.

End Download.

(** ** Searching employees; reconciling an access list *)

Section Search.

Variable toLowerCase : string -> string.

Lemma prefix_refl (s : string) : String.prefix s s = true.
Proof.
  induction s as [|a s IH]; cbn [String.prefix]; [reflexivity|].
  destruct (Ascii.ascii_dec a a); [exact IH|contradiction].
Qed.

Lemma strIncludes_refl (s : string) : EmployeeSearch.strIncludes s s = true.
Proof.
  destruct s; cbn [EmployeeSearch.strIncludes]; rewrite prefix_refl; reflexivity.
Qed.

(** X22. A search for an employee's own [employeeId], in any letter case,
    finds that employee: when the query and the [employeeId] have the
    same lower-case form, [getEmployees] returns the employee among its
    results (an empty query returns every employee). *)
Theorem getEmployees_finds_by_employeeId (q : string) (e : Employee.t) (s : State) :
  In e (Store.getAll (employees s)) ->
  toLowerCase q = toLowerCase (Employee.employeeId (snd e)) ->
  In e (EmployeeSearch.getEmployees toLowerCase (Some q) s).
Proof.
  intros Hin Hq. unfold EmployeeSearch.getEmployees.
  destruct q as [|a q']; [exact Hin|].
  apply filter_In. split; [exact Hin|].
  unfold EmployeeSearch.matches. rewrite Hq, strIncludes_refl.
  apply orb_true_r.
Qed.

(** X23. The two lists that [updateRoomWithAccess] and
    [updateEmployeeWithAccess] compute reconcile the current ids with the
    wanted ones: an id is wanted exactly when it is granted now or is
    current and not revoked now, and no id is both granted and revoked.
    Granting and revoking are done only for ids that change side. *)
Theorem reconcile_reaches_wanted (wanted current : list Z) (id : Z) :
  (In id wanted
   <-> In id (ApiService.toAdd wanted current)
       \/ (In id current /\ ~ In id (ApiService.toRemove wanted current)))
  /\ ~ (In id (ApiService.toAdd wanted current)
        /\ In id (ApiService.toRemove wanted current))
  /\ (In id (ApiService.toAdd wanted current) -> ~ In id current)
  /\ (In id (ApiService.toRemove wanted current) -> ~ In id wanted).
Proof.
  unfold ApiService.toAdd, ApiService.toRemove. rewrite !filter_In.
  destruct (includes current id) eqn:Hc; destruct (includes wanted id) eqn:Hw;
    cbn [negb];
    try (apply includes_In in Hc); try (apply includes_In in Hw);
    try (assert (Hnc : ~ In id current)
           by (intros Hin; apply includes_In in Hin; congruence));
    try (assert (Hnw : ~ In id wanted)
           by (intros Hin; apply includes_In in Hin; congruence));
    intuition congruence.
Qed.

End Search.

(** ** The properties on the sample data *)

Lemma keysOk_one {V} (k g : Z) (v : V) : k < g -> keysOk (Store.mk [(k, v)] g).
Proof.
  intros Hlt. split; cbn [Store.records Store.keyGenerator map fst].
  - constructor; [intros []|constructor].
  - constructor; [cbn [fst]; lia|constructor].
Qed.

Lemma indexOk_one {V} (unique : V -> V -> bool) (k g : Z) (v : V) :
  indexOk unique (Store.mk [(k, v)] g).
Proof.
  intros k' v' [H|[]]. injection H as <- <-.
  unfold Store.clashes. cbn [Store.records existsb fst]. rewrite Z.eqb_refl.
  reflexivity.
Qed.

Lemma intact_oneGrant : intact Sample.oneGrant.
Proof.
  unfold intact, Sample.oneGrant. cbn [rooms employees accessRights].
  repeat split; try (apply keysOk_one; lia); try apply indexOk_one.
Qed.

Lemma intact_noGrant : intact Sample.noGrant.
Proof.
  unfold intact, Sample.noGrant. cbn [rooms employees accessRights].
  pose proof (@keysOk_empty AccessRight.fields) as Hk.
  pose proof (@indexOk_empty AccessRight.fields AccessRight.unique) as Hi.
  repeat split; try (apply keysOk_one; lia); try apply indexOk_one;
    try apply Hk; try apply Hi.
Qed.

Lemma cacheAgrees_oneGrant : cacheAgrees Sample.oneGrant.
Proof.
  intros id e Hget r. apply getEmployeeById_get in Hget.
  unfold Store.get in Hget. apply lookup_in in Hget.
  destruct Hget as [Hget|[]]. injection Hget as <- <-. cbn. tauto.
Qed.

Lemma cacheAgrees_noGrant : cacheAgrees Sample.noGrant.
Proof.
  intros id e Hget r. apply getEmployeeById_get in Hget.
  unfold Store.get in Hget. apply lookup_in in Hget.
  destruct Hget as [Hget|[]]. injection Hget as <- <-. cbn. tauto.
Qed.

Lemma createRoom_stores_room_witness :
  keysOk (rooms Sample.oneGrant)
  /\ IndexedDBService.getRoomById 6
       (snd (IndexedDBService.createRoom Sample.env (None, Sample.room101)
               Sample.oneGrant))
     = Some (6, Sample.room101)
  /\ keysOk (rooms Sample.exhausted)
  /\ IndexedDBService.createRoom Sample.env (None, Sample.room101) Sample.exhausted
     = (Rejected ConstraintError, Sample.exhausted).
Proof.
  assert (Hk : keysOk (rooms Sample.oneGrant)) by (apply keysOk_one; lia).
  assert (Hmax : Store.keyGenerator (rooms Sample.oneGrant) <= Store.maxKey)
    by discriminate.
  assert (Hk' : keysOk (rooms Sample.exhausted))
    by (apply keysOk_one; unfold Store.maxKey; lia).
  assert (Hfull : Store.maxKey < Store.keyGenerator (rooms Sample.exhausted))
    by reflexivity.
  split; [exact Hk|].
  pose proof (createRoom_stores_room Sample.env Sample.oneGrant
                Sample.room101 Hk) as H.
  pose proof (createRoom_stores_room Sample.env Sample.exhausted
                Sample.room101 Hk') as H'.
  cbv zeta in H, H'.
  split; [exact (proj1 (proj2 (proj1 H Hmax)))|].
  split; [exact Hk'|exact (proj2 H' Hfull)].
Defined.

Lemma createEmployee_rejects_used_employeeId_witness :
  IndexedDBService.createEmployee Sample.env (None, Sample.ivanov []) Sample.oneGrant
  = (Rejected ConstraintError, Sample.oneGrant).
Proof.
  apply (createEmployee_rejects_used_employeeId Sample.env Sample.oneGrant
           (Sample.ivanov []) (Sample.ivanov [5]) 1).
  - apply keysOk_one. lia.
  - left. reflexivity.
  - reflexivity.
Defined.

Lemma deleteEmployee_cascade_witness :
  IndexedDBService.getEmployeeById 1
    (snd (IndexedDBService.deleteEmployee Sample.env 1 Sample.oneGrant)) = None
  /\ rooms (snd (IndexedDBService.deleteEmployee Sample.env 1 Sample.oneGrant))
     = rooms Sample.oneGrant.
Proof.
  assert (Hk : keysOk (accessRights Sample.oneGrant)) by (apply keysOk_one; lia).
  assert (He : 1 <> 0) by discriminate.
  pose proof (deleteEmployee_cascade Sample.env Sample.oneGrant 1 He Hk) as H.
  cbv zeta in H. destruct H as (H1 & _ & _ & H4 & _). split; assumption.
Defined.

Lemma delete_zero_id_wipes_accessRights_witness :
  Store.records (accessRights Sample.oneGrant) = [(1, AccessRight.mk 1 5)]
  /\ Store.records
       (accessRights (snd (IndexedDBService.deleteRoom Sample.env 0 Sample.oneGrant)))
     = [].
Proof.
  split; [reflexivity|].
  apply (delete_zero_id_wipes_accessRights Sample.env Sample.oneGrant).
  apply keysOk_one. lia.
Defined.

Lemma createRoom_after_deleteRoom_new_id_witness :
  IndexedDBService.getRoomById 5
    (snd (IndexedDBService.createRoom Sample.env (None, Sample.room101)
            (snd (IndexedDBService.deleteRoom Sample.env 5 Sample.oneGrant))))
  = None.
Proof.
  assert (Hk : keysOk (rooms Sample.oneGrant)) by (apply keysOk_one; lia).
  assert (Hmax : Store.keyGenerator (rooms Sample.oneGrant) <= Store.maxKey)
    by discriminate.
  assert (Hin : In (5, Sample.room101) (Store.records (rooms Sample.oneGrant)))
    by (left; reflexivity).
  exact (proj1 (createRoom_after_deleteRoom_new_id Sample.env Sample.oneGrant 5
                  Sample.room101 Sample.room101 Hk Hmax Hin)).
Defined.

Lemma grantAccess_keeps_agreement_witness :
  cacheAgrees Sample.noGrant
  /\ cacheAgrees (snd (IndexedDBService.grantAccess Sample.env 1 5 Sample.noGrant)).
Proof.
  split; [exact cacheAgrees_noGrant|].
  destruct intact_noGrant as (_ & _ & Hka & Hie & _).
  apply (grantAccess_keeps_agreement Sample.env Sample.noGrant 1 5
           (fst (IndexedDBService.grantAccess Sample.env 1 5 Sample.noGrant))).
  - discriminate.
  - discriminate.
  - exact Hka.
  - exact Hie.
  - exact cacheAgrees_noGrant.
  - apply surjective_pairing.
Defined.

Lemma revokeAccess_keeps_agreement_witness :
  cacheAgrees Sample.oneGrant
  /\ cacheAgrees (snd (IndexedDBService.revokeAccess Sample.env 1 5 Sample.oneGrant)).
Proof.
  split; [exact cacheAgrees_oneGrant|].
  destruct intact_oneGrant as (_ & _ & Hka & Hie & _).
  apply (revokeAccess_keeps_agreement Sample.env Sample.oneGrant 1 5
           (fst (IndexedDBService.revokeAccess Sample.env 1 5 Sample.oneGrant))).
  - discriminate.
  - discriminate.
  - exact Hka.
  - exact Hie.
  - exact cacheAgrees_oneGrant.
  - apply surjective_pairing.
Defined.

Lemma deleteEmployee_keeps_agreement_witness :
  cacheAgrees Sample.oneGrant
  /\ cacheAgrees (snd (IndexedDBService.deleteEmployee Sample.env 1 Sample.oneGrant)).
Proof.
  split; [exact cacheAgrees_oneGrant|].
  apply (deleteEmployee_keeps_agreement Sample.env Sample.oneGrant 1).
  - discriminate.
  - apply keysOk_one. lia.
  - exact cacheAgrees_oneGrant.
Defined.

Lemma revokeAccess_removes_pair_witness :
  rowsFor 1 5 Sample.oneGrant = [(1, AccessRight.mk 1 5)]
  /\ rowsFor 1 5 (snd (IndexedDBService.revokeAccess Sample.env 1 5 Sample.oneGrant))
     = [].
Proof.
  split; [reflexivity|].
  destruct intact_oneGrant as (_ & _ & Hka & Hie & _).
  assert (H1 : 1 <> 0) by discriminate.
  assert (H5 : 5 <> 0) by discriminate.
  exact (proj1 (revokeAccess_removes_pair Sample.env Sample.oneGrant 1 5
                  H1 H5 Hka Hie)).
Defined.

Lemma grantAccess_then_revokeAccess_restores_witness :
  Store.records
    (accessRights
       (snd (IndexedDBService.revokeAccess Sample.env 1 5
               (snd (IndexedDBService.grantAccess Sample.env 1 5 Sample.noGrant)))))
  = Store.records (accessRights Sample.noGrant).
Proof.
  assert (H1 : 1 <> 0) by discriminate.
  assert (H5 : 5 <> 0) by discriminate.
  assert (Hrows : rowsFor 1 5 Sample.noGrant = []) by reflexivity.
  assert (Hget : Store.get 1 (employees Sample.noGrant) = Some (Sample.ivanov []))
    by reflexivity.
  assert (Hnot : ~ In 5 (Employee.accessRooms (Sample.ivanov []))) by (intros []).
  pose proof (grantAccess_then_revokeAccess_restores Sample.env Sample.noGrant 1 5
                (Sample.ivanov []) H1 H5 intact_noGrant Hrows Hget Hnot) as H.
  cbv zeta in H. exact (proj1 (proj2 H)).
Defined.

Lemma grantAccess_unknown_employee_witness :
  IndexedDBService.getEmployeeById 2 Sample.noGrant = None
  /\ In (1, AccessRight.mk 2 5)
        (Store.records
           (accessRights (snd (IndexedDBService.grantAccess Sample.env 2 5
                                 Sample.noGrant))))
  /\ IndexedDBService.grantAccess Sample.env 2 5 Sample.exhausted
     = (Resolved false, Sample.exhausted).
Proof.
  split; [reflexivity|].
  assert (Hfull : Store.maxKey < Store.keyGenerator (accessRights Sample.exhausted))
    by reflexivity.
  assert (Hka' : keysOk (accessRights Sample.exhausted)) by (split; constructor).
  split;
    [|exact (proj2 (grantAccess_unknown_employee Sample.env Sample.exhausted 2 5
                      ltac:(discriminate) ltac:(discriminate) Hka' eq_refl eq_refl)
                   Hfull)].
  assert (H2 : 2 <> 0) by discriminate.
  assert (H5 : 5 <> 0) by discriminate.
  destruct intact_noGrant as (_ & _ & Hka & _).
  assert (Hrows : rowsFor 2 5 Sample.noGrant = []) by reflexivity.
  assert (Hnone : IndexedDBService.getEmployeeById 2 Sample.noGrant = None)
    by reflexivity.
  assert (Hmax : Store.keyGenerator (accessRights Sample.noGrant) <= Store.maxKey)
    by discriminate.
  pose proof (grantAccess_unknown_employee Sample.env Sample.noGrant 2 5
                H2 H5 Hka Hrows Hnone) as H.
  cbv zeta in H. exact (proj1 (proj1 H Hmax)).
Defined.

Lemma bulkImport_taken_id_rejects_witness :
  IndexedDBService.bulkImportRooms Sample.env
    [(None, Sample.room101); (Some 5, Sample.room101)] Sample.oneGrant
  = (Rejected ConstraintError, Sample.oneGrant).
Proof.
  apply (bulkImport_taken_id_rejects Sample.env ROOMS RoomEntity
           (RoomsData [(None, Sample.room101); (Some 5, Sample.room101)])
           [(None, Sample.room101); (Some 5, Sample.room101)]
           Sample.oneGrant 5 Sample.room101 Sample.room101).
  - right. left. reflexivity.
  - reflexivity.
Defined.

Lemma reachable_rows_unique_witness :
  Nat.le
    (length
       (IndexedDBService.getAccessRights (Some 1) (Some 1)
          (callAll Sample.env
             [CallMutation (DoCreateEmployee (None, Sample.ivanov []));
              CallGrantAccess 1 1; CallGrantAccess 1 1]
             emptyDatabase)))
    1.
Proof.
  assert (H1 : 1 <> 0) by discriminate.
  exact (proj1 (reachable_rows_unique Sample.env
                  [CallMutation (DoCreateEmployee (None, Sample.ivanov []));
                   CallGrantAccess 1 1; CallGrantAccess 1 1] 1 1 H1 H1)).
Defined.

Lemma addPendingChange_then_deletePendingChange_witness :
  pendingChanges
    (snd (IndexedDBService.deletePendingChange (randomUUID Sample.env 0)
            (snd (IndexedDBService.addPendingChange Sample.env Create RoomEntity
                    (RoomData (5, Sample.room101)) Sample.oneGrant))))
  = pendingChanges Sample.oneGrant.
Proof.
  assert (Hfree : IndexedDBService.hasPending
                    (randomUUID Sample.env (draws Sample.oneGrant))
                    (pendingChanges Sample.oneGrant) = false) by reflexivity.
  pose proof (addPendingChange_then_deletePendingChange Sample.env Create RoomEntity
                (RoomData (5, Sample.room101)) Sample.oneGrant Hfree) as H.
  cbv zeta in H. exact (proj1 (proj2 (proj2 H))).
Defined.

Lemma syncToServer_accepting_server_empties_outbox_witness :
  length (pendingChanges (SyncService.localDb Sample.queued)) = 3%nat
  /\ pendingChanges
       (SyncService.localDb
          (fst (snd (SyncService.syncToServer Sample.env Sample.roomlessServer true
                       Sample.queued [])))) = [].
Proof.
  split; [reflexivity|].
  assert (Hok : forall m d r, fst (apiRequest Sample.roomlessServer m d r) = true)
    by reflexivity.
  assert (Hidle : SyncService.isSyncing Sample.queued = false) by reflexivity.
  pose proof (syncToServer_accepting_server_empties_outbox Sample.env
                Sample.roomlessServer Sample.queued [] Hok Hidle) as H.
  cbv zeta in H. exact (proj1 (proj2 H)).
Defined.

Lemma syncToServer_leaves_only_creates_witness :
  Forall (fun c => PendingChange.operation c = Create
                   /\ PendingChange.entityType c <> AccessEntity)
    (pendingChanges
       (SyncService.localDb
          (fst (snd (SyncService.syncToServer Sample.env Sample.server true
                       Sample.queued []))))).
Proof.
  apply (syncToServer_leaves_only_creates Sample.env Sample.server Sample.queued []).
  reflexivity.
Defined.

Lemma fullSync_never_reports_failure_witness :
  fst (SyncService.fullSync Sample.env Sample.server true true true Sample.fresh [])
  = Resolved true
  \/ fst (SyncService.fullSync Sample.env Sample.server true true true Sample.fresh [])
     = Unsettled.
Proof.
  apply (fullSync_never_reports_failure Sample.env Sample.server true Sample.fresh []).
  reflexivity.
Defined.

Lemma getEmployees_finds_by_employeeId_witness :
  In (1, Sample.ivanov [5])
     (EmployeeSearch.getEmployees (fun s => s) (Some "EMP001"%string) Sample.oneGrant).
Proof.
  apply (getEmployees_finds_by_employeeId (fun s => s) "EMP001"%string
           (1, Sample.ivanov [5]) Sample.oneGrant).
  - left. reflexivity.
  - reflexivity.
Defined.

Lemma provider_deleteRoom_witness :
  DataContext.deleteRoom Sample.env 5 Sample.oneGrant
  = IndexedDBService.deleteRoom Sample.env 5 Sample.oneGrant.
Proof.
  apply (provider_deleteRoom Sample.env 5 Sample.oneGrant). discriminate.
Defined.
